(** * BiometricProcessor: a shallow embedding of
      [biometrics/stream/biometric_processor.py]

    The processor keeps, per bed side, a rolling history of fused heart
    rates, a percentile plausibility band, a moving average and a clamped
    standard-deviation band.  Every method of the Python class is embedded
    as a function on an explicit [Processor] record; the persistence sink
    [insert_vitals] and [traceback.print_exc] act on an explicit [World].

    Numbers.  Python floats are idealised as exact reals extended with one
    not-a-number value ([pyfloat]): arithmetic is exact, NaN propagates
    through every operation and every comparison with NaN is false, as in
    IEEE 754.  Rounding and infinities are not modelled.  Python integers
    are [Z]; lengths and the [deque] capacity are [nat].  The raw samples
    are the values of an [int32] array, and [np.ptp] wraps as NumPy does.

    Exceptions are explicit ([result]); calls to the logger are left out. *)

From Stdlib Require Import Reals Lra Lia ZArith String List Bool.
Import ListNotations.

Local Open Scope R_scope.

(** ** Floats with NaN *)

Inductive pyfloat : Type :=
  | NaN
  | Fin (x : R).

Definition Rltb (x y : R) : bool := if Rlt_dec x y then true else false.

Definition isnan (a : pyfloat) : bool :=
  match a with NaN => true | Fin _ => false end.

(** [a < b] and [a > b]; false as soon as one side is NaN. *)
Definition flt (a b : pyfloat) : bool :=
  match a, b with
  | Fin x, Fin y => Rltb x y
  | _, _ => false
  end.

Definition fgt (a b : pyfloat) : bool := flt b a.

Definition lift2 (op : R -> R -> R) (a b : pyfloat) : pyfloat :=
  match a, b with
  | Fin x, Fin y => Fin (op x y)
  | _, _ => NaN
  end.

Definition fadd : pyfloat -> pyfloat -> pyfloat := lift2 Rplus.
Definition fsub : pyfloat -> pyfloat -> pyfloat := lift2 Rminus.
Definition fmul : pyfloat -> pyfloat -> pyfloat := lift2 Rmult.

(** Division is only ever applied to the literal divisor [2] in the source;
    a zero divisor is mapped to NaN. *)
Definition fdiv (a b : pyfloat) : pyfloat :=
  match a, b with
  | Fin x, Fin y => if Req_dec_T y 0 then NaN else Fin (x / y)
  | _, _ => NaN
  end.

Definition fabs (a : pyfloat) : pyfloat :=
  match a with
  | NaN => NaN
  | Fin x => Fin (Rabs x)
  end.

Definition is_fin (a : pyfloat) : Prop :=
  match a with NaN => False | Fin _ => True end.

(** ** NumPy reductions used by the processor *)

(** The real values of an array, or [None] when it holds a NaN. *)
Fixpoint finite_values (l : list pyfloat) : option (list R) :=
  match l with
  | [] => Some []
  | NaN :: _ => None
  | Fin x :: t =>
      match finite_values t with
      | Some xs => Some (x :: xs)
      | None => None
      end
  end.

Definition Rsum (l : list R) : R := fold_right Rplus 0 l.

Definition Rmean (l : list R) : R := Rsum l / INR (length l).

(** [np.mean]: NaN on an empty array (NumPy warns, it does not raise). *)
Definition np_mean (l : list pyfloat) : pyfloat :=
  match finite_values l with
  | Some (x :: xs) => Fin (Rmean (x :: xs))
  | _ => NaN
  end.

Definition Rvariance (l : list R) : R :=
  Rmean (map (fun v => (v - Rmean l) * (v - Rmean l)) l).

(** [np.std]: population standard deviation (ddof = 0). *)
Definition np_std (l : list pyfloat) : pyfloat :=
  match finite_values l with
  | Some (x :: xs) => Fin (sqrt (Rvariance (x :: xs)))
  | _ => NaN
  end.

Fixpoint Rinsert (x : R) (l : list R) : list R :=
  match l with
  | [] => [x]
  | y :: t => if Rle_dec x y then x :: y :: t else y :: Rinsert x t
  end.

Definition Rsort (l : list R) : list R := fold_right Rinsert [] l.

(** The [q]-th percentile of real data, NumPy's default "linear" method:
    the virtual index [q/100 * (n-1)] is split into its floor [i] and its
    fractional part [g], and the result interpolates between the [i]-th and
    the next order statistic. *)
Definition Rpercentile (l : list R) (q : nat) : R :=
  let s := Rsort l in
  let pos := (q * (length l - 1))%nat in
  let i := (pos / 100)%nat in
  let g := INR (pos mod 100) / 100 in
  let j := Nat.min (i + 1) (length l - 1) in
  nth i s 0 + (nth j s 0 - nth i s 0) * g.

Inductive exn : Type :=
  | DspError            (* any [Exception] raised by the DSP stage *)
  | ZeroDivisionError
  | TypeError
  | ValueError
  | IndexError
  | AttributeError.

Inductive result (A : Type) : Type :=
  | Ok (a : A)
  | Raise (e : exn).
Arguments Ok {A} a.
Arguments Raise {A} e.

Definition bind {A B} (r : result A) (k : A -> result B) : result B :=
  match r with
  | Ok a => k a
  | Raise e => Raise e
  end.

Notation "x <- r ;; k" := (bind r (fun x => k))
  (at level 61, r at next level, right associativity).

(** [np.percentile]: a percentile outside [0, 100] raises [ValueError]
    (checked first); an empty array raises [IndexError], which the
    processor reaches when [moving_avg_size] is 0; an array holding a NaN
    yields NaN. *)
Definition np_percentile (l : list pyfloat) (q : nat) : result pyfloat :=
  if (100 <? q)%nat then Raise ValueError
  else match finite_values l with
       | Some (x :: xs) => Ok (Fin (Rpercentile (x :: xs) q))
       | Some [] => Raise IndexError
       | None => Ok NaN
       end.

(** Two's-complement wrap-around of a 32-bit integer. *)
Definition wrap_int32 (z : Z) : Z :=
  ((z + 2147483648) mod 4294967296 - 2147483648)%Z.

(** [np.ptp]: peak-to-peak range; raises [ValueError] on an empty array.
    The raw piezo samples come as an [int32] array, and NumPy subtracts the
    minimum from the maximum in the array's own type: a range of 2^31 or
    more wraps around to a negative number. *)
Definition np_ptp (signal : list Z) : result Z :=
  match signal with
  | [] => Raise ValueError
  | x :: t => Ok (wrap_int32 (fold_right Z.max x t - fold_right Z.min x t))
  end.

(** ** Python sequences *)

(** [l[start:]] with Python's treatment of a negative [start]. *)
Definition py_slice_from {A} (l : list A) (start : Z) : list A :=
  if (start <? 0)%Z
  then skipn (length l - Z.to_nat (- start)) l
  else skipn (Z.to_nat start) l.

(** [collections.deque(maxlen=n).append]: once full, the oldest item is
    dropped from the left. *)
Definition deque_append {A} (maxlen : nat) (l : list A) (x : A) : list A :=
  if (length l <? maxlen)%nat then l ++ [x] else tl (l ++ [x]).

Fixpoint last_item {A} (l : list A) : option A :=
  match l with
  | [] => None
  | [x] => Some x
  | _ :: t => last_item t
  end.

(** In-place update of [l[-1]]. *)
Fixpoint update_last {A} (f : A -> A) (l : list A) : list A :=
  match l with
  | [] => []
  | [x] => [f x]
  | x :: t => x :: update_last f t
  end.

(** ** Data model *)

(** The [Measurement] dictionary. *)
Record Measurement : Type := mkMeasurement {
  side_of : string;
  timestamp : Z;
  heart_rate : pyfloat;
  hrv : pyfloat;
  breathing_rate : pyfloat;
}.

Definition set_heart_rate (hr : pyfloat) (m : Measurement) : Measurement :=
  mkMeasurement (side_of m) (timestamp m) hr (hrv m) (breathing_rate m).

(** The keys of the dictionary returned by [heartpy.process] that the
    processor reads. *)
Record HeartpyMeasures : Type := mkHeartpy {
  bpm : pyfloat;
  sdnn : pyfloat;
  breathingrate : pyfloat;
}.

(** Outcome of the DSP stage of [_calculate_vitals] on one signal. *)
Inductive dsp_outcome : Type :=
  | DspRaises
  | DspReturns (m : HeartpyMeasures).

(** The dictionary appended to [debug_measurements]: the fields of the last
    combined measurement with [heart_rate] overridden, plus the trace keys. *)
Record DebugMeasurement : Type := mkDebug {
  dbg_side : string;
  dbg_timestamp : Z;
  dbg_hrv : pyfloat;
  dbg_breathing_rate : pyfloat;
  dbg_last_combined_measurement : string;
  dbg_current_ts : string;
  dbg_heart_rate : pyfloat;
  dbg_last_heart_rates : list pyfloat;
  dbg_hr_moving_avg : option pyfloat;
  dbg_lower_bound : option pyfloat;
  dbg_upper_bound : option pyfloat;
  dbg_hr_std_2 : option pyfloat;
  dbg_length : nat;
}.

(** Constructor arguments and [runtime_params]; never assigned after
    [__init__].  The percentiles of [hr_percentile] are whole numbers, as
    in the default [(15, 80)]. *)
Record Config : Type := mkConfig {
  side : string;
  insertion_frequency : Z;
  rolling_average_size : Z;
  debug : bool;
  moving_avg_size : nat;
  hr_std_range : R * R;
  hr_percentile : nat * nat;
}.

Definition default_config : Config :=
  mkConfig "left" 60 25 false 120 (1, 10) (15%nat, 80%nat).

(** The mutable attributes of a [BiometricProcessor]. [epoch] is absent
    until the first [calculate_vitals]. *)
Record Processor : Type := mkProcessor {
  present : bool;
  not_present_for : Z;
  iteration_count : Z;
  epoch : option Z;
  heart_rates : list pyfloat;
  lower_bound : option pyfloat;
  upper_bound : option pyfloat;
  hr_moving_avg : option pyfloat;
  hr_std_2 : option pyfloat;
  combined_measurements : list Measurement;
  debug_measurements : list DebugMeasurement;
}.

(** What the processor does to the outside: rows handed to [insert_vitals]
    (oldest first) and tracebacks printed on stderr. *)
Record World : Type := mkWorld {
  vitals_db : list Measurement;
  tracebacks : nat;
}.

Definition empty_world : World := mkWorld [] 0.

Definition no_presence_tolerance : Z := 10.

(** [__init__]. *)
Definition init : Processor :=
  mkProcessor false 0 0 None [] None None None None [] [].

(** [init_tracking]. *)
Definition init_tracking (p : Processor) : Processor :=
  mkProcessor (present p) (not_present_for p) (iteration_count p) (epoch p)
    [] None None None None
    (combined_measurements p) (debug_measurements p).

(** [reset]. *)
Definition reset (p : Processor) : Processor :=
  init_tracking
    (mkProcessor (present p) (not_present_for p) 0 (epoch p)
       (heart_rates p) (lower_bound p) (upper_bound p) (hr_moving_avg p)
       (hr_std_2 p) (combined_measurements p) (debug_measurements p)).

Definition set_presence (b : bool) (n : Z) (p : Processor) : Processor :=
  mkProcessor b n (iteration_count p) (epoch p)
    (heart_rates p) (lower_bound p) (upper_bound p) (hr_moving_avg p)
    (hr_std_2 p) (combined_measurements p) (debug_measurements p).

(** [detect_presence]. *)
Definition detect_presence (signal : list Z) (p : Processor)
  : result Processor :=
  signal_range <- np_ptp signal ;;
  if (200000 <? signal_range)%Z
  then Ok (set_presence true 0 p)
  else
    let n := (not_present_for p + 1)%Z in
    if (n =? no_presence_tolerance)%Z
    then Ok (reset (set_presence false n p))
    else Ok (set_presence (present p) n p).

(** ** The processor's methods *)

Module BiometricProcessor.
Section Instance.

(** Constructor arguments of this instance. *)
Variable cfg : Config.

(** The DSP stage of [_calculate_vitals] (lines 115-141: outlier
    interpolation, scaling, baseline-wander removal, band-pass filter and
    [heartpy.process]), an external black box: a function of the raw signal
    under the instance's fixed runtime parameters that returns the heartpy
    measures or raises. *)
Variable dsp_stage : list Z -> dsp_outcome.

(** [datetime.utcfromtimestamp(t).isoformat()], from the standard library;
    [None] where it raises ([ValueError]: a timestamp outside the range of
    [datetime]).  The name [datetime] is taken to be the class, as brought
    in by [from data_types import *]. *)
Variable utc_isoformat : Z -> option string.

Definition isoformat_of (t : Z) : result string :=
  match utc_isoformat t with
  | Some s => Ok s
  | None => Raise ValueError
  end.

(** [is_valid]. *)
Definition is_valid (p : Processor) (measurement : HeartpyMeasures) : bool :=
  if isnan (bpm measurement) then false
  else if fgt (bpm measurement) (Fin 90) then false
  else match lower_bound p, upper_bound p with
       | Some lo, Some hi =>
           if flt lo (bpm measurement) && flt (bpm measurement) hi
           then true else false
       | _, _ => true
       end.

(** [_calculate_vitals]. *)
Definition _calculate_vitals (p : Processor) (signal : list Z) (epoch : Z)
  : result (option Measurement) :=
  match dsp_stage signal with
  | DspRaises => Raise DspError
  | DspReturns measurement =>
      if is_valid p measurement then
        let hrv := sdnn measurement in
        let hrv :=
          if flt hrv (Fin 30) || fgt hrv (Fin 120) then Fin 0 else hrv in
        let breathing_rate := fmul (breathingrate measurement) (Fin 60) in
        let breathing_rate :=
          if flt breathing_rate (Fin 8) || fgt breathing_rate (Fin 25)
          then Fin 0 else breathing_rate in
        Ok (Some (mkMeasurement (side cfg) epoch (bpm measurement)
                    hrv breathing_rate))
      else Ok None
  end.

(** The outlier clamp that each of the three branches of [calculate_vitals]
    applies to its candidate (lines 187-191, 207-211, 226-230).  Comparing
    with an unset [hr_std_2] is a [TypeError]. *)
Definition clamp (p : Processor) (heart_rate : pyfloat) : result pyfloat :=
  match hr_moving_avg p with
  | None => Ok heart_rate
  | Some avg =>
      match hr_std_2 p with
      | None => Raise TypeError
      | Some std_2 =>
          if fgt (fabs (fsub heart_rate avg)) std_2
          then if flt heart_rate avg
               then Ok (fsub avg std_2)
               else Ok (fadd avg std_2)
          else Ok heart_rate
      end
  end.

(** [self.heart_rates.append(hr); self.combined_measurements.append(m)]. *)
Definition record_measurement (p : Processor) (hr : pyfloat) (m : Measurement)
  : Processor :=
  mkProcessor (present p) (not_present_for p) (iteration_count p) (epoch p)
    (deque_append (moving_avg_size cfg) (heart_rates p) hr)
    (lower_bound p) (upper_bound p) (hr_moving_avg p) (hr_std_2 p)
    (deque_append 100 (combined_measurements p) m)
    (debug_measurements p).

(** The candidate heart rate of the two-signal branch (lines 180-185). *)
Definition candidate_both (p : Processor) (m1 m2 : Measurement) : pyfloat :=
  match hr_moving_avg p with
  | Some avg =>
      fdiv (fadd (fdiv (fadd (heart_rate m1) (heart_rate m2)) (Fin 2)) avg)
           (Fin 2)
  | None => fdiv (fadd (heart_rate m1) (heart_rate m2)) (Fin 2)
  end.

(** The candidate of the signal-2-only branch (lines 219-224). *)
Definition candidate_second (p : Processor) (m2 : Measurement) : pyfloat :=
  match hr_moving_avg p with
  | Some avg => fdiv (fadd (heart_rate m2) avg) (Fin 2)
  | None => heart_rate m2
  end.

(** The fusion stage of [calculate_vitals] (lines 179-235). *)
Definition fuse (epoch : Z) (measurement_1 measurement_2 : option Measurement)
    (p : Processor) : result Processor :=
  match measurement_1, measurement_2 with
  | Some m1, Some m2 =>
      heart_rate <- clamp p (candidate_both p m1 m2) ;;
      Ok (record_measurement p heart_rate
            (mkMeasurement (side cfg) epoch heart_rate
               (fdiv (fadd (hrv m1) (hrv m2)) (Fin 2))
               (fadd (breathing_rate m1) (breathing_rate m2))))
  | Some m1, None =>
      m1_heart_rate <- clamp p (heart_rate m1) ;;
      Ok (record_measurement p m1_heart_rate
            (set_heart_rate m1_heart_rate m1))
  | None, Some m2 =>
      heart_rate <- clamp p (candidate_second p m2) ;;
      Ok (record_measurement p heart_rate (set_heart_rate heart_rate m2))
  | None, None => Ok p
  end.

Definition set_iteration_count (n : Z) (p : Processor) : Processor :=
  mkProcessor (present p) (not_present_for p) n (epoch p)
    (heart_rates p) (lower_bound p) (upper_bound p) (hr_moving_avg p)
    (hr_std_2 p) (combined_measurements p) (debug_measurements p).

Definition set_epoch (e : Z) (p : Processor) : Processor :=
  mkProcessor (present p) (not_present_for p) (iteration_count p) (Some e)
    (heart_rates p) (lower_bound p) (upper_bound p) (hr_moving_avg p)
    (hr_std_2 p) (combined_measurements p) (debug_measurements p).

Definition set_combined_measurements (l : list Measurement) (p : Processor)
  : Processor :=
  mkProcessor (present p) (not_present_for p) (iteration_count p) (epoch p)
    (heart_rates p) (lower_bound p) (upper_bound p) (hr_moving_avg p)
    (hr_std_2 p) l (debug_measurements p).

Definition set_debug_measurements (l : list DebugMeasurement) (p : Processor)
  : Processor :=
  mkProcessor (present p) (not_present_for p) (iteration_count p) (epoch p)
    (heart_rates p) (lower_bound p) (upper_bound p) (hr_moving_avg p)
    (hr_std_2 p) (combined_measurements p) l.

Definition set_statistics (lo hi avg std_2 : pyfloat) (p : Processor)
  : Processor :=
  mkProcessor (present p) (not_present_for p) (iteration_count p) (epoch p)
    (heart_rates p) (Some lo) (Some hi) (Some avg) (Some std_2)
    (combined_measurements p) (debug_measurements p).

(** [insert_vitals(m)]: the row is written out as it is at the call. *)
Definition insert_vitals (m : Measurement) (w : World) : World :=
  mkWorld (vitals_db w ++ [m]) (tracebacks w).

(** [traceback.print_exc()]. *)
Definition print_exc (w : World) : World :=
  mkWorld (vitals_db w) (S (tracebacks w)).

(** The periodic sink of [next] (lines 254-275), run after the counter has
    been incremented.  [len(self.combined_measurements) > 0] and the
    accesses to [self.combined_measurements[-1]] are one match on the last
    item. *)
Definition periodic_sink (p : Processor) (w : World)
  : result (Processor * World) :=
  if (insertion_frequency cfg =? 0)%Z then Raise ZeroDivisionError
  else
    match (iteration_count p mod insertion_frequency cfg =? 0)%Z,
          last_item (combined_measurements p) with
    | true, Some last_combined_measurement =>
        let heart_rate :=
          np_mean (py_slice_from (heart_rates p)
                     (rolling_average_size cfg * -1)) in
        if negb (debug cfg) then
          let p' :=
            set_combined_measurements
              (update_last (set_heart_rate heart_rate)
                 (combined_measurements p)) p in
          Ok (p', insert_vitals
                    (set_heart_rate heart_rate last_combined_measurement) w)
        else
          ts <- isoformat_of (timestamp last_combined_measurement) ;;
          e <- match epoch p with
               | Some e => Ok e
               | None => Raise AttributeError
               end ;;
          current_ts <- isoformat_of e ;;
          let debug_measurement :=
            mkDebug (side_of last_combined_measurement)
              (timestamp last_combined_measurement)
              (hrv last_combined_measurement)
              (breathing_rate last_combined_measurement)
              ts current_ts heart_rate
              (py_slice_from (heart_rates p) (-25))
              (hr_moving_avg p) (lower_bound p) (upper_bound p) (hr_std_2 p)
              (length (heart_rates p)) in
          Ok (set_debug_measurements
                (debug_measurements p ++ [debug_measurement]) p, w)
    | _, _ => Ok (p, w)
    end.

(** The rolling statistics of [next] (lines 277-291). *)
Definition rolling_statistics (p : Processor) : result Processor :=
  if (moving_avg_size cfg <=? length (heart_rates p))%nat then
    let avg := np_mean (heart_rates p) in
    lo <- np_percentile (heart_rates p) (fst (hr_percentile cfg)) ;;
    hi <- np_percentile (heart_rates p) (snd (hr_percentile cfg)) ;;
    let widen := flt (fsub hi lo) (Fin 25) in
    let hi' := if widen then fadd avg (Fin 12.5) else hi in
    let lo' := if widen then fsub avg (Fin 12.5) else lo in
    let std_2 := fmul (np_std (heart_rates p)) (Fin 2) in
    let std_2' :=
      if flt std_2 (Fin (fst (hr_std_range cfg)))
      then Fin (fst (hr_std_range cfg))
      else if fgt std_2 (Fin (snd (hr_std_range cfg)))
           then Fin (snd (hr_std_range cfg))
           else std_2 in
    Ok (set_statistics lo' hi' avg std_2' p)
  else Ok p.

(** [next]. *)
Definition next (p : Processor) (w : World) : result (Processor * World) :=
  let p := set_iteration_count (iteration_count p + 1) p in
  pw <- periodic_sink p w ;;
  p' <- rolling_statistics (fst pw) ;;
  Ok (p', snd pw).

(** [calculate_vitals]: the two guarded extractions (lines 161-177), the
    fusion stage, then [next]. *)
Definition calculate_vitals (epoch : Z) (signal1 : list Z)
    (signal2 : option (list Z)) (p : Processor) (w : World)
  : result (Processor * World) :=
  let p := set_epoch epoch p in
  let '(measurement_1, w) :=
    match _calculate_vitals p signal1 epoch with
    | Ok m => (m, w)
    | Raise _ => (None, if debug cfg then print_exc w else w)
    end in
  let measurement_2 :=
    match signal2 with
    | None => None
    | Some s2 =>
        match _calculate_vitals p s2 epoch with
        | Ok m => m
        | Raise _ => None
        end
    end in
  p <- fuse epoch measurement_1 measurement_2 p ;;
  next p w.

(** ** Sequences of calls *)

Inductive event : Type :=
  | DetectPresence (signal : list Z)
  | CalculateVitals (epoch : Z) (signal1 : list Z)
      (signal2 : option (list Z)).

Definition step (ev : event) (p : Processor) (w : World)
  : result (Processor * World) :=
  match ev with
  | DetectPresence signal =>
      p' <- detect_presence signal p ;; Ok (p', w)
  | CalculateVitals epoch signal1 signal2 =>
      calculate_vitals epoch signal1 signal2 p w
  end.

Fixpoint run (evs : list event) (p : Processor) (w : World)
  : result (Processor * World) :=
  match evs with
  | [] => Ok (p, w)
  | ev :: rest => pw <- step ev p w ;; run rest (fst pw) (snd pw)
  end.

(** The states a freshly constructed processor can be driven into. *)
Inductive reachable : Processor -> World -> Prop :=
  | reachable_init : reachable init empty_world
  | reachable_step ev p w p' w' :
      reachable p w -> step ev p w = Ok (p', w') -> reachable p' w'.

(** What a guarded extraction of [calculate_vitals] leaves in
    [measurement_1] / [measurement_2]. *)
Definition extracted (p : Processor) (signal : list Z) (epoch : Z)
  : option Measurement :=
  match _calculate_vitals p signal epoch with
  | Ok m => m
  | Raise _ => None
  end.

Definition extracted_2 (p : Processor) (signal2 : option (list Z))
    (epoch : Z) : option Measurement :=
  match signal2 with
  | None => None
  | Some s2 => extracted p s2 epoch
  end.

(** Whether a call would produce a fused measurement in state [p]. *)
Definition produces (p : Processor) (ev : event) : bool :=
  match ev with
  | DetectPresence _ => false
  | CalculateVitals epoch signal1 signal2 =>
      match extracted p signal1 epoch, extracted_2 p signal2 epoch with
      | None, None => false
      | _, _ => true
      end
  end.

(** Whether some call of [evs], run from [p], produces a measurement. *)
Fixpoint produces_any (evs : list event) (p : Processor) (w : World)
  : bool :=
  match evs with
  | [] => false
  | ev :: rest =>
      produces p ev
      || match step ev p w with
         | Ok (p', w') => produces_any rest p' w'
         | Raise _ => false
         end
  end.

Definition is_calculate_vitals (ev : event) : bool :=
  match ev with
  | CalculateVitals _ _ _ => true
  | DetectPresence _ => false
  end.

End Instance.
End BiometricProcessor.

Import BiometricProcessor.

(** ** The quantities the specification names *)

(** The last [k] entries of a sequence. *)
Definition last_entries {A} (k : nat) (l : list A) : list A :=
  skipn (length l - k) l.

(** A value clamped into the range [[lo, hi]]. *)
Definition clamp_into (lo hi x : R) : R := Rmax lo (Rmin hi x).

(** The percentile band: the two percentiles, or the band of width 25
    centred on the mean when the percentiles are less than 25 apart. *)
Definition plausibility_band (xs : list R) (q_lo q_hi : nat) : R * R :=
  if Rlt_dec (Rpercentile xs q_hi - Rpercentile xs q_lo) 25
  then (Rmean xs - 12.5, Rmean xs + 12.5)
  else (Rpercentile xs q_lo, Rpercentile xs q_hi).

(** A signal whose peak-to-peak range is at most 200,000. *)
Definition low_amplitude (signal : list Z) : Prop :=
  exists r, np_ptp signal = Ok r /\ (r <= 200000)%Z.

(** Two processors that differ at most in [present] and
    [not_present_for]. *)
Definition same_but_presence (p q : Processor) : Prop :=
  iteration_count p = iteration_count q
  /\ epoch p = epoch q
  /\ heart_rates p = heart_rates q
  /\ lower_bound p = lower_bound q
  /\ upper_bound p = upper_bound q
  /\ hr_moving_avg p = hr_moving_avg q
  /\ hr_std_2 p = hr_std_2 q
  /\ combined_measurements p = combined_measurements q
  /\ debug_measurements p = debug_measurements q.

(** ** A small instance to run the model on *)

(** History of two heart rates, insertion every second epoch. *)
Definition test_config : Config :=
  mkConfig "left" 2 2 false 2 (1, 10) (15%nat, 80%nat).

Definition test_config_debug : Config :=
  mkConfig "left" 2 2 true 2 (1, 10) (15%nat, 80%nat).

(** A stand-in DSP stage: it raises on an empty signal and otherwise reads
    the first sample as the BPM. *)
Definition test_dsp (signal : list Z) : dsp_outcome :=
  match signal with
  | [] => DspRaises
  | b :: _ => DspReturns (mkHeartpy (Fin (IZR b)) (Fin 50) (Fin 0.25))
  end.

(** A stand-in clock that knows the first two seconds of the Unix era. *)
Definition test_isoformat (t : Z) : option string :=
  if (t =? 0)%Z then Some "1970-01-01T00:00:00"%string
  else if (t =? 1)%Z then Some "1970-01-01T00:00:01"%string
  else None.

(** Twice the standard deviation, brought into the configured range the
    way [next] does it (lines 287-291). *)
Definition std_band (range : R * R) (xs : list R) : R :=
  let s := sqrt (Rvariance xs) * 2 in
  if Rlt_dec s (fst range) then fst range
  else if Rlt_dec (snd range) s then snd range
  else s.

Definition statistics_unset (p : Processor) : Prop :=
  lower_bound p = None /\ upper_bound p = None
  /\ hr_moving_avg p = None /\ hr_std_2 p = None.

(** The four statistics are those of the history [xs]. *)
Definition statistics_of (cfg : Config) (xs : list R) (p : Processor)
  : Prop :=
  let band :=
    plausibility_band xs (fst (hr_percentile cfg)) (snd (hr_percentile cfg))
  in
  lower_bound p = Some (Fin (fst band))
  /\ upper_bound p = Some (Fin (snd band))
  /\ hr_moving_avg p = Some (Fin (Rmean xs))
  /\ hr_std_2 p = Some (Fin (std_band (hr_std_range cfg) xs)).

(** What holds of the history between the fusion stage and [next]: it is
    NaN-free and within capacity, and nothing is set before it is full. *)
Definition history_ok (cfg : Config) (xs : list R) (p : Processor) : Prop :=
  finite_values (heart_rates p) = Some xs
  /\ (length xs <= moving_avg_size cfg)%nat
  /\ ((length xs < moving_avg_size cfg)%nat -> statistics_unset p).

(** The invariant of the processor between calls. *)
Definition invariant (cfg : Config) (p : Processor) : Prop :=
  exists xs,
    finite_values (heart_rates p) = Some xs
    /\ (((length xs < moving_avg_size cfg)%nat /\ statistics_unset p)
        \/ (length xs = moving_avg_size cfg /\ statistics_of cfg xs p)).

(** The candidate heart rate that the fusion stage hands to the clamp, if
    it has a measurement at all. *)
Definition candidate_of (p : Processor) (m1 m2 : option Measurement)
  : option pyfloat :=
  match m1, m2 with
  | Some m1, Some m2 => Some (candidate_both p m1 m2)
  | Some m1, None => Some (heart_rate m1)
  | None, Some m2 => Some (candidate_second p m2)
  | None, None => None
  end.

Definition fin_heart_rate (m : option Measurement) : Prop :=
  match m with
  | Some m => exists b, heart_rate m = Fin b
  | None => True
  end.

(** A call's outcome with [present] and [not_present_for] overwritten. *)
Definition with_presence (b : bool) (n : Z) (r : result (Processor * World))
  : result (Processor * World) :=
  match r with
  | Ok (p, w) => Ok (set_presence b n p, w)
  | Raise e => Raise e
  end.

(** The processor after one epoch with a 60 BPM reading on signal 1, after
    a second such epoch (the history is full and the sink has fired), and
    after a third epoch with a 70 BPM reading, clamped to 61. *)
Definition state1 : Processor :=
  mkProcessor false 0 1 (Some 0%Z) [Fin 60] None None None None
    [mkMeasurement "left" 0 (Fin 60) (Fin 50) (Fin 15)] [].

Definition state2 : Processor :=
  mkProcessor false 0 2 (Some 1%Z) [Fin 60; Fin 60]
    (Some (Fin 47.5)) (Some (Fin 72.5)) (Some (Fin 60)) (Some (Fin 1))
    [mkMeasurement "left" 0 (Fin 60) (Fin 50) (Fin 15);
     mkMeasurement "left" 1 (Fin 60) (Fin 50) (Fin 15)] [].

Definition world2 : World :=
  mkWorld [mkMeasurement "left" 1 (Fin 60) (Fin 50) (Fin 15)] 0.

Definition state3 : Processor :=
  mkProcessor false 0 3 (Some 2%Z) [Fin 60; Fin 61]
    (Some (Fin 48)) (Some (Fin 73)) (Some (Fin 60.5)) (Some (Fin 1))
    [mkMeasurement "left" 0 (Fin 60) (Fin 50) (Fin 15);
     mkMeasurement "left" 1 (Fin 60) (Fin 50) (Fin 15);
     mkMeasurement "left" 2 (Fin 61) (Fin 50) (Fin 15)] [].

(** The processor after one epoch with readings of 60 and 70 BPM on the two
    signals. *)
Definition state_both : Processor :=
  mkProcessor false 0 1 (Some 0%Z) [Fin 65] None None None None
    [mkMeasurement "left" 0 (Fin 65) (Fin 50) (Fin 30)] [].

(** A processor in debug mode one epoch before an insertion. *)
Definition debug_state : Processor :=
  mkProcessor false 0 1 (Some 1%Z) [Fin 60] None None None None
    [mkMeasurement "left" 0 (Fin 60) (Fin 50) (Fin 15)] [].

(** A finite heart rate of at most 90 BPM. *)
Definition at_most_90 (h : pyfloat) : Prop :=
  match h with
  | NaN => False
  | Fin x => x <= 90
  end.

(** What [_calculate_vitals] leaves of a value it zeroes outside
    [[lo, hi]]: NaN (a NaN input fails both comparisons), zero, or a value
    of the range. *)
Definition zero_or_within (lo hi : R) (v : pyfloat) : Prop :=
  match v with
  | NaN => True
  | Fin x => x = 0 \/ lo <= x <= hi
  end.

(** The average that the candidates are damped with: unset, or finite, at
    most 90 and paired with a finite non-negative std band. *)
Definition damping_ok (p : Processor) : Prop :=
  hr_moving_avg p = None
  \/ exists a s,
       hr_moving_avg p = Some (Fin a) /\ a <= 90
       /\ hr_std_2 p = Some (Fin s) /\ 0 <= s.

(** * Properties *)

Lemma Rltb_true x y : Rltb x y = true <-> x < y.
Proof. unfold Rltb. destruct (Rlt_dec x y); split; intros; try easy; lra. Qed.

Lemma Rltb_false x y : Rltb x y = false <-> y <= x.
Proof. unfold Rltb. destruct (Rlt_dec x y); split; intros; try easy; lra. Qed.

Lemma flt_fin x y : flt (Fin x) (Fin y) = true <-> x < y.
Proof. apply Rltb_true. Qed.

Lemma flt_fin_false x y : flt (Fin x) (Fin y) = false <-> y <= x.
Proof. apply Rltb_false. Qed.

Lemma fdiv_two x : fdiv (Fin x) (Fin 2) = Fin (x / 2).
Proof. simpl. destruct (Req_dec_T 2 0); [lra | reflexivity]. Qed.

Lemma is_valid_in_range p m x :
  bpm m = Fin x -> x <= 90 ->
  is_valid p m =
    match lower_bound p, upper_bound p with
    | Some lo, Some hi => flt lo (Fin x) && flt (Fin x) hi
    | _, _ => true
    end.
Proof.
  intros Hb Hx. unfold is_valid. rewrite Hb. cbn [isnan]. unfold fgt.
  assert (Hn : flt (Fin 90) (Fin x) = false) by (apply flt_fin_false; lra).
  rewrite Hn.
  destruct (lower_bound p), (upper_bound p); try reflexivity.
  now destruct (_ && _).
Qed.

Lemma is_valid_fin p m : is_valid p m = true -> exists x, bpm m = Fin x.
Proof.
  unfold is_valid. destruct (bpm m) as [|x]; simpl; [discriminate|].
  intros _. now exists x.
Qed.

(** C7. [is_valid] rejects a NaN BPM and a BPM above 90; for any other BPM
    it answers [lower_bound < BPM < upper_bound] when both bounds are set,
    so a BPM equal to a bound is rejected, and accepts when a bound is
    unset. *)
Theorem is_valid_spec (p : Processor) (m : HeartpyMeasures) :
  (bpm m = NaN -> is_valid p m = false)
  /\ (forall x, bpm m = Fin x -> x > 90 -> is_valid p m = false)
  /\ (forall x lo hi,
        bpm m = Fin x -> x <= 90 ->
        lower_bound p = Some (Fin lo) -> upper_bound p = Some (Fin hi) ->
        (is_valid p m = true <-> lo < x < hi)
        /\ (x = lo \/ x = hi -> is_valid p m = false))
  /\ (forall x,
        bpm m = Fin x -> x <= 90 ->
        lower_bound p = None \/ upper_bound p = None ->
        is_valid p m = true).
Proof.
  split; [|split; [|split]].
  - intros Hb. unfold is_valid. now rewrite Hb.
  - intros x Hb Hx. unfold is_valid. rewrite Hb. cbn [isnan]. unfold fgt.
    assert (H : flt (Fin 90) (Fin x) = true) by (apply flt_fin; lra).
    now rewrite H.
  - intros x lo hi Hb Hx Hlo Hhi.
    rewrite (is_valid_in_range p m x Hb Hx), Hlo, Hhi.
    rewrite andb_true_iff, !flt_fin. split; [tauto|].
    intros Heq. apply andb_false_iff. rewrite !flt_fin_false.
    destruct Heq; lra.
  - intros x Hb Hx Hnone.
    rewrite (is_valid_in_range p m x Hb Hx).
    destruct Hnone as [-> | ->]; [reflexivity|].
    now destruct (lower_bound p).
Qed.

(** ** Presence detection *)

Section Presence.

Variable cfg : Config.
Variable dsp_stage : list Z -> dsp_outcome.
Variable utc_isoformat : Z -> option string.

Local Abbreviation runs := (run cfg dsp_stage utc_isoformat).

Lemma set_presence_same p : set_presence (present p) (not_present_for p) p = p.
Proof. now destruct p. Qed.

Lemma set_presence_twice b n b' n' p :
  set_presence b' n' (set_presence b n p) = set_presence b' n' p.
Proof. reflexivity. Qed.

Lemma detect_presence_low signal r p :
  np_ptp signal = Ok r -> (r <= 200000)%Z ->
  detect_presence signal p =
    Ok (if (not_present_for p + 1 =? no_presence_tolerance)%Z
        then reset (set_presence false (not_present_for p + 1) p)
        else set_presence (present p) (not_present_for p + 1) p).
Proof.
  intros Hr Hle. unfold detect_presence. rewrite Hr. simpl.
  assert (E : (200000 <? r)%Z = false) by now apply Z.ltb_ge.
  rewrite E. now destruct (_ =? _)%Z.
Qed.







End Presence.

(** ** Sequences and deques *)

Lemma last_item_app {A} (l : list A) x : last_item (l ++ [x]) = Some x.
Proof.
  induction l as [|y t IH]; [reflexivity|].
  cbn [app last_item]. destruct (t ++ [x]) eqn:E; [|exact IH].
  now destruct t.
Qed.

Lemma last_item_deque_append {A} n (l : list A) x :
  (0 < n)%nat -> last_item (deque_append n l x) = Some x.
Proof.
  intros Hn. unfold deque_append.
  destruct (length l <? n)%nat eqn:E; [apply last_item_app|].
  apply Nat.ltb_ge in E.
  destruct l as [|y t]; [simpl in E; lia|].
  cbn [app tl]. apply last_item_app.
Qed.

Lemma last_item_update_last {A} (f : A -> A) l :
  last_item (update_last f l) = option_map f (last_item l).
Proof.
  induction l as [|x t IH]; [reflexivity|].
  destruct t as [|y t]; [reflexivity|].
  change (update_last f (x :: y :: t)) with (x :: update_last f (y :: t)).
  change (last_item (x :: y :: t)) with (last_item (y :: t)).
  rewrite <- IH. cbn [update_last]. now destruct t.
Qed.

Lemma length_update_last {A} (f : A -> A) l :
  length (update_last f l) = length l.
Proof.
  induction l as [|x t IH]; [reflexivity|].
  destruct t as [|y t]; [reflexivity|].
  change (update_last f (x :: y :: t)) with (x :: update_last f (y :: t)).
  cbn [length] in *. now rewrite IH.
Qed.

Lemma length_deque_append {A} n (l : list A) x :
  (length l <= n)%nat ->
  length (deque_append n l x) = Nat.min (S (length l)) n.
Proof.
  intros Hle. unfold deque_append.
  destruct (length l <? n)%nat eqn:E.
  - apply Nat.ltb_lt in E. rewrite length_app. cbn [length]. lia.
  - apply Nat.ltb_ge in E.
    destruct l as [|y t]; cbn [length app tl] in *; [lia|].
    rewrite length_app. cbn [length]. lia.
Qed.

Lemma last_item_nonempty {A} (l : list A) :
  l <> [] -> exists x, last_item l = Some x.
Proof.
  induction l as [|x t IH]; [congruence|]. intros _.
  destruct t as [|y t]; [now exists x|].
  destruct IH as [z Hz]; [congruence|]. now exists z.
Qed.

Lemma py_slice_last_entries {A} (l : list A) (k : Z) :
  (0 < k)%Z -> py_slice_from l (k * -1) = last_entries (Z.to_nat k) l.
Proof.
  intros Hk. unfold py_slice_from, last_entries.
  assert (E : (k * -1 <? 0)%Z = true) by (apply Z.ltb_lt; lia).
  rewrite E. do 3 f_equal. lia.
Qed.

(** ** One call of [calculate_vitals] *)

Section OneCall.

Variable cfg : Config.
Variable dsp_stage : list Z -> dsp_outcome.
Variable utc_isoformat : Z -> option string.

Local Abbreviation extracted := (extracted cfg dsp_stage).
Local Abbreviation extracted_2 := (extracted_2 cfg dsp_stage).
Local Abbreviation fuse := (fuse cfg).
Local Abbreviation next := (next cfg utc_isoformat).
Local Abbreviation periodic_sink := (periodic_sink cfg utc_isoformat).
Local Abbreviation rolling_statistics := (rolling_statistics cfg).
Local Abbreviation calculate_vitals :=
  (calculate_vitals cfg dsp_stage utc_isoformat).

(** The world after the two guarded extractions: a traceback is printed
    only for signal 1, and only in debug mode. *)
Lemma calculate_vitals_eq epoch s1 s2 p w :
  calculate_vitals epoch s1 s2 p w =
    (p1 <- fuse epoch (extracted p s1 epoch) (extracted_2 p s2 epoch)
             (set_epoch epoch p) ;;
     next p1 (match dsp_stage s1 with
              | DspRaises => if debug cfg then print_exc w else w
              | DspReturns _ => w
              end)).
Proof.
  unfold BiometricProcessor.calculate_vitals, BiometricProcessor.extracted_2,
    BiometricProcessor.extracted, _calculate_vitals.
  change (is_valid (set_epoch epoch p)) with (is_valid p).
  destruct (dsp_stage s1) as [|h1]; [reflexivity|].
  now destruct (is_valid p h1).
Qed.

Lemma extracted_some p s epoch m :
  extracted p s epoch = Some m ->
  exists h b,
    dsp_stage s = DspReturns h /\ is_valid p h = true /\ bpm h = Fin b
    /\ heart_rate m = Fin b /\ timestamp m = epoch /\ side_of m = side cfg.
Proof.
  unfold BiometricProcessor.extracted, _calculate_vitals.
  destruct (dsp_stage s) as [|h]; [discriminate|].
  destruct (is_valid p h) eqn:Hv; [|discriminate].
  intros H. inversion H; subst; clear H.
  destruct (is_valid_fin p h Hv) as [b Hb].
  exists h, b. cbn. repeat split; auto.
Qed.

Lemma extracted_raises p s epoch :
  dsp_stage s = DspRaises -> extracted p s epoch = None.
Proof.
  intros H. unfold BiometricProcessor.extracted, _calculate_vitals. now rewrite H.
Qed.

Lemma periodic_sink_frame p w p' w' :
  periodic_sink p w = Ok (p', w') ->
  present p' = present p /\ not_present_for p' = not_present_for p
  /\ iteration_count p' = iteration_count p /\ epoch p' = epoch p
  /\ heart_rates p' = heart_rates p
  /\ lower_bound p' = lower_bound p /\ upper_bound p' = upper_bound p
  /\ hr_moving_avg p' = hr_moving_avg p /\ hr_std_2 p' = hr_std_2 p
  /\ (combined_measurements p' = combined_measurements p
      \/ exists h, combined_measurements p' =
                   update_last (set_heart_rate h) (combined_measurements p)).
Proof.
  unfold BiometricProcessor.periodic_sink.
  destruct (insertion_frequency cfg =? 0)%Z; [discriminate|].
  destruct (_ =? 0)%Z; [|intros H; inversion H; subst; repeat split; auto].
  destruct (last_item _) as [m|]; [|intros H; inversion H; subst; repeat split; auto].
  destruct (debug cfg); cbn [negb].
  - destruct (isoformat_of _ _) as [ts|]; cbn [bind]; [|discriminate].
    destruct (epoch p) as [e|] eqn:He; cbn [bind]; [|discriminate].
    destruct (isoformat_of _ _) as [cur|]; cbn [bind]; [|discriminate].
    intros H; inversion H; subst. cbn. repeat split; auto.
  - intros H; inversion H; subst. cbn.
    repeat (split; [reflexivity|]). right. eexists. reflexivity.
Qed.

Lemma rolling_statistics_frame p p' :
  rolling_statistics p = Ok p' ->
  present p' = present p /\ not_present_for p' = not_present_for p
  /\ iteration_count p' = iteration_count p /\ epoch p' = epoch p
  /\ heart_rates p' = heart_rates p
  /\ combined_measurements p' = combined_measurements p
  /\ debug_measurements p' = debug_measurements p.
Proof.
  unfold BiometricProcessor.rolling_statistics.
  destruct (_ <=? _)%nat; [|intros H; inversion H; subst; repeat split; auto].
  destruct (np_percentile _ _) as [lo|]; cbn [bind]; [|discriminate].
  destruct (np_percentile _ _) as [hi|]; cbn [bind]; [|discriminate].
  intros H; inversion H; subst. cbn. repeat split; auto.
Qed.

Lemma next_frame p w p' w' :
  next p w = Ok (p', w') ->
  present p' = present p /\ not_present_for p' = not_present_for p
  /\ iteration_count p' = (iteration_count p + 1)%Z /\ epoch p' = epoch p
  /\ heart_rates p' = heart_rates p
  /\ (combined_measurements p' = combined_measurements p
      \/ exists h, combined_measurements p' =
                   update_last (set_heart_rate h) (combined_measurements p)).
Proof.
  unfold BiometricProcessor.next.
  destruct (periodic_sink _ w) as [[p1 w1]|] eqn:Hs; cbn [bind fst snd];
    [|discriminate].
  destruct (rolling_statistics p1) as [p2|] eqn:Hr; cbn [bind];
    [|discriminate].
  intros H; inversion H; subst; clear H.
  apply periodic_sink_frame in Hs. apply rolling_statistics_frame in Hr.
  cbn in Hs.
  destruct Hs as (? & ? & ? & ? & ? & _ & _ & _ & _ & Hcm).
  destruct Hr as (? & ? & ? & ? & ? & Hc & _).
  repeat split; try congruence. now rewrite Hc.
Qed.

(** [next] keeps every field of the last combined measurement but, possibly,
    its heart rate. *)
Lemma next_last_measurement p w p' w' m :
  next p w = Ok (p', w') ->
  last_item (combined_measurements p) = Some m ->
  exists m',
    last_item (combined_measurements p') = Some m'
    /\ side_of m' = side_of m /\ timestamp m' = timestamp m
    /\ hrv m' = hrv m /\ breathing_rate m' = breathing_rate m.
Proof.
  intros Hn Hl. apply next_frame in Hn.
  destruct Hn as (_ & _ & _ & _ & _ & [-> | [h ->]]).
  - exists m. auto.
  - rewrite last_item_update_last, Hl. cbn. eexists. split; [reflexivity|].
    cbn. auto.
Qed.

Lemma extracted_valid p s epoch h :
  dsp_stage s = DspReturns h -> is_valid p h = true ->
  exists m b,
    extracted p s epoch = Some m /\ bpm h = Fin b /\ heart_rate m = Fin b
    /\ timestamp m = epoch /\ side_of m = side cfg.
Proof.
  intros Hd Hv. unfold BiometricProcessor.extracted, _calculate_vitals.
  rewrite Hd, Hv. destruct (is_valid_fin p h Hv) as [b Hb].
  eexists. exists b. split; [reflexivity|]. cbn. auto.
Qed.

Lemma clamp_unset p hr : hr_moving_avg p = None -> clamp p hr = Ok hr.
Proof. intros H. unfold clamp. now rewrite H. Qed.

(** The state between the fusion stage and [next]. *)
Lemma calculate_vitals_inv epoch s1 s2 p w p' w' :
  calculate_vitals epoch s1 s2 p w = Ok (p', w') ->
  exists p1 w1,
    fuse epoch (extracted p s1 epoch) (extracted_2 p s2 epoch)
      (set_epoch epoch p) = Ok p1
    /\ next p1 w1 = Ok (p', w')
    /\ vitals_db w1 = vitals_db w
    /\ heart_rates p' = heart_rates p1.
Proof.
  rewrite calculate_vitals_eq.
  destruct (fuse _ _ _ _) as [p1|]; cbn [bind]; [|discriminate].
  intros Hn. exists p1. eexists. split; [reflexivity|]. split; [exact Hn|].
  split.
  - destruct (dsp_stage s1); [now destruct (debug cfg)|reflexivity].
  - now apply next_frame in Hn.
Qed.

(** C5. With valid measurements from both signals the candidate is the
    average of the two BPMs, averaged once more with [hr_moving_avg] when
    there is one; its clamped value is what enters [heart_rates] and the
    combined record.  The record's [hrv] is the average of the two HRV
    values and its [breathing_rate] their sum. *)
Theorem fusion_of_both_signals epoch s1 s2 h1 h2 p w p' w' :
  dsp_stage s1 = DspReturns h1 -> is_valid p h1 = true ->
  dsp_stage s2 = DspReturns h2 -> is_valid p h2 = true ->
  calculate_vitals epoch s1 (Some s2) p w = Ok (p', w') ->
  exists b1 b2 m1 m2 hr p1 m,
    bpm h1 = Fin b1 /\ bpm h2 = Fin b2
    /\ extracted p s1 epoch = Some m1 /\ extracted p s2 epoch = Some m2
    /\ clamp p
         (match hr_moving_avg p with
          | None => Fin ((b1 + b2) / 2)
          | Some avg => fdiv (fadd (Fin ((b1 + b2) / 2)) avg) (Fin 2)
          end) = Ok hr
    /\ fuse epoch (Some m1) (Some m2) (set_epoch epoch p) = Ok p1
    /\ next p1 w = Ok (p', w')
    /\ heart_rates p' = deque_append (moving_avg_size cfg) (heart_rates p) hr
    /\ last_item (combined_measurements p1) =
         Some (mkMeasurement (side cfg) epoch hr
                 (fdiv (fadd (hrv m1) (hrv m2)) (Fin 2))
                 (fadd (breathing_rate m1) (breathing_rate m2)))
    /\ last_item (combined_measurements p') = Some m
    /\ hrv m = fdiv (fadd (hrv m1) (hrv m2)) (Fin 2)
    /\ breathing_rate m = fadd (breathing_rate m1) (breathing_rate m2).
Proof.
  intros Hd1 Hv1 Hd2 Hv2 Hcalc.
  destruct (extracted_valid p s1 epoch h1 Hd1 Hv1)
    as (m1 & b1 & Hm1 & Hb1 & Hr1 & _).
  destruct (extracted_valid p s2 epoch h2 Hd2 Hv2)
    as (m2 & b2 & Hm2 & Hb2 & Hr2 & _).
  rewrite calculate_vitals_eq in Hcalc. rewrite Hd1 in Hcalc.
  cbn [BiometricProcessor.extracted_2] in Hcalc. rewrite Hm1, Hm2 in Hcalc.
  cbn [BiometricProcessor.fuse] in Hcalc.
  change (clamp (set_epoch epoch p)) with (clamp p) in Hcalc.
  change (candidate_both (set_epoch epoch p)) with (candidate_both p)
    in Hcalc.
  assert (Hcand : candidate_both p m1 m2 =
            match hr_moving_avg p with
            | None => Fin ((b1 + b2) / 2)
            | Some avg => fdiv (fadd (Fin ((b1 + b2) / 2)) avg) (Fin 2)
            end).
  { unfold candidate_both. rewrite Hr1, Hr2.
    cbn [fadd lift2]. now rewrite fdiv_two. }
  rewrite Hcand in Hcalc.
  destruct (clamp p _) as [hr|] eqn:Hc; cbn [bind] in Hcalc; [|discriminate].
  pose proof Hcalc as Hn. apply next_frame in Hn.
  destruct Hn as (_ & _ & _ & _ & Hhr & _).
  destruct (next_last_measurement _ _ _ _ _ Hcalc
              (last_item_deque_append 100 _ _ ltac:(lia)))
    as (m & Hm & _ & _ & Hh & Hb).
  exists b1, b2, m1, m2, hr. eexists. exists m.
  split; [exact Hb1|]. split; [exact Hb2|].
  split; [exact Hm1|]. split; [exact Hm2|]. split; [exact Hc|].
  split.
  { cbn [BiometricProcessor.fuse].
    change (clamp (set_epoch epoch p)) with (clamp p).
    change (candidate_both (set_epoch epoch p)) with (candidate_both p).
    rewrite Hcand, Hc. reflexivity. }
  split; [exact Hcalc|]. split; [exact Hhr|].
  split; [apply last_item_deque_append; lia|].
  split; [exact Hm|]. split; [exact Hh | exact Hb].
Qed.

(** C6. With a valid measurement from one signal only: signal 1 enters the
    clamp with its own BPM, signal 2 is first averaged with [hr_moving_avg]
    when there is one; without a moving average either records its own
    BPM. *)
Theorem fusion_of_one_signal epoch s1 s2 p w p' w' :
  calculate_vitals epoch s1 s2 p w = Ok (p', w') ->
  (forall h1,
      dsp_stage s1 = DspReturns h1 -> is_valid p h1 = true ->
      extracted_2 p s2 epoch = None ->
      exists b1 m1 hr p1,
        bpm h1 = Fin b1 /\ extracted p s1 epoch = Some m1
        /\ clamp p (Fin b1) = Ok hr
        /\ fuse epoch (Some m1) None (set_epoch epoch p) = Ok p1
        /\ next p1 w = Ok (p', w')
        /\ heart_rates p' =
             deque_append (moving_avg_size cfg) (heart_rates p) hr
        /\ last_item (combined_measurements p1) = Some (set_heart_rate hr m1)
        /\ (hr_moving_avg p = None -> hr = Fin b1))
  /\ (forall sig2 h2,
        s2 = Some sig2 -> extracted p s1 epoch = None ->
        dsp_stage sig2 = DspReturns h2 -> is_valid p h2 = true ->
        exists b2 m2 hr p1 w1,
          bpm h2 = Fin b2 /\ extracted p sig2 epoch = Some m2
          /\ clamp p
               (match hr_moving_avg p with
                | None => Fin b2
                | Some avg => fdiv (fadd (Fin b2) avg) (Fin 2)
                end) = Ok hr
          /\ fuse epoch None (Some m2) (set_epoch epoch p) = Ok p1
          /\ next p1 w1 = Ok (p', w') /\ vitals_db w1 = vitals_db w
          /\ heart_rates p' =
               deque_append (moving_avg_size cfg) (heart_rates p) hr
          /\ last_item (combined_measurements p1) =
               Some (set_heart_rate hr m2)
          /\ (hr_moving_avg p = None -> hr = Fin b2)).
Proof.
  intros Hcalc. split.
  - intros h1 Hd1 Hv1 Hnone.
    destruct (extracted_valid p s1 epoch h1 Hd1 Hv1)
      as (m1 & b1 & Hm1 & Hb1 & Hr1 & _).
    rewrite calculate_vitals_eq in Hcalc.
    rewrite Hd1, Hm1, Hnone in Hcalc. cbn [BiometricProcessor.fuse] in *.
    change (clamp (set_epoch epoch p)) with (clamp p) in *.
    rewrite Hr1 in *.
    destruct (clamp p (Fin b1)) as [hr|] eqn:Hc; cbn [bind] in Hcalc;
      [|discriminate].
    exists b1, m1, hr. eexists.
    split; [exact Hb1|]. split; [exact Hm1|]. split; [exact Hc|].
    split; [rewrite Hr1; change (clamp (set_epoch epoch p)) with (clamp p);
            rewrite Hc; reflexivity|].
    split; [exact Hcalc|].
    split; [now apply next_frame in Hcalc|].
    split; [apply last_item_deque_append; lia|].
    intros Hav. rewrite (clamp_unset p _ Hav) in Hc. congruence.
  - intros sig2 h2 -> Hnone Hd2 Hv2.
    destruct (extracted_valid p sig2 epoch h2 Hd2 Hv2)
      as (m2 & b2 & Hm2 & Hb2 & Hr2 & _).
    rewrite calculate_vitals_eq in Hcalc.
    cbn [BiometricProcessor.extracted_2] in Hcalc.
    rewrite Hm2, Hnone in Hcalc. cbn [BiometricProcessor.fuse] in *.
    change (clamp (set_epoch epoch p)) with (clamp p) in *.
    change (candidate_second (set_epoch epoch p)) with (candidate_second p)
      in *.
    assert (Hcand : candidate_second p m2 =
              match hr_moving_avg p with
              | None => Fin b2
              | Some avg => fdiv (fadd (Fin b2) avg) (Fin 2)
              end) by (unfold candidate_second; now rewrite Hr2).
    rewrite Hcand in Hcalc.
    destruct (clamp p _) as [hr|] eqn:Hc; cbn [bind] in Hcalc;
      [|discriminate].
    exists b2, m2, hr. do 2 eexists.
    split; [exact Hb2|]. split; [exact Hm2|]. split; [exact Hc|].
    split; [change (clamp (set_epoch epoch p)) with (clamp p);
            change (candidate_second (set_epoch epoch p))
              with (candidate_second p);
            rewrite Hcand, Hc; reflexivity|].
    split; [exact Hcalc|].
    split; [destruct (dsp_stage s1); [now destruct (debug cfg)|reflexivity]|].
    split; [now apply next_frame in Hcalc|].
    split; [apply last_item_deque_append; lia|].
    intros Hav. rewrite Hav in Hc. rewrite (clamp_unset p _ Hav) in Hc.
    congruence.
Qed.

Lemma clamp_raises p hr e : clamp p hr = Raise e -> e = TypeError.
Proof.
  unfold clamp. destruct (hr_moving_avg p); [|discriminate].
  destruct (hr_std_2 p); [|congruence].
  destruct (fgt _ _); [destruct (flt _ _)|]; discriminate.
Qed.

Lemma clamp_returns p hr :
  hr_moving_avg p = None \/ (exists s, hr_std_2 p = Some s) ->
  exists hr', clamp p hr = Ok hr'.
Proof.
  unfold clamp. intros [-> | [s ->]]; [now eexists|].
  destruct (hr_moving_avg p); [|now eexists].
  destruct (fgt _ _); [destruct (flt _ _)|]; now eexists.
Qed.

Lemma fuse_raises epoch m1 m2 p e :
  fuse epoch m1 m2 p = Raise e -> e = TypeError.
Proof.
  unfold BiometricProcessor.fuse.
  destruct m1 as [m1|], m2 as [m2|]; try discriminate;
    (destruct (clamp p _) eqn:Hc; cbn [bind];
     [discriminate | intros H; inversion H; subst; eapply clamp_raises, Hc]).
Qed.

Lemma fuse_returns epoch m1 m2 p :
  hr_moving_avg p = None \/ (exists s, hr_std_2 p = Some s) ->
  exists p1, fuse epoch m1 m2 p = Ok p1.
Proof.
  intros Hwf. unfold BiometricProcessor.fuse.
  destruct m1 as [m1|], m2 as [m2|]; try (now eexists);
    match goal with
    | |- context [clamp p ?c] =>
        destruct (clamp_returns p c Hwf) as [hr ->]; cbn [bind]; now eexists
    end.
Qed.

Lemma next_raises p w e :
  next p w = Raise e ->
  e = ZeroDivisionError \/ e = ValueError \/ e = IndexError
  \/ e = AttributeError.
Proof.
  unfold BiometricProcessor.next, BiometricProcessor.periodic_sink,
    BiometricProcessor.rolling_statistics, isoformat_of, np_percentile.
  repeat match goal with
    | |- context [match ?x with _ => _ end] => destruct x; cbn [bind fst snd]
    end; intros H; inversion H; auto.
Qed.

(** On a history that can be full only when it is non-empty the rolling
    statistics are computed without an exception. *)
Lemma rolling_statistics_returns p :
  (0 < moving_avg_size cfg)%nat ->
  (fst (hr_percentile cfg) <= 100)%nat ->
  (snd (hr_percentile cfg) <= 100)%nat ->
  exists p', rolling_statistics p = Ok p'.
Proof.
  intros HN Hq0 Hq1.
  unfold BiometricProcessor.rolling_statistics, np_percentile.
  assert (E0 : (100 <? fst (hr_percentile cfg))%nat = false)
    by (apply Nat.ltb_ge; lia).
  assert (E1 : (100 <? snd (hr_percentile cfg))%nat = false)
    by (apply Nat.ltb_ge; lia).
  rewrite E0, E1.
  destruct (_ <=? _)%nat eqn:Efull; [|now eexists].
  apply Nat.leb_le in Efull.
  destruct (heart_rates p) as [|[|y] t]; cbn [length] in Efull; [lia| |];
    cbn [finite_values].
  - cbn [bind]. now eexists.
  - destruct (finite_values t); cbn [bind]; now eexists.
Qed.

Lemma next_returns p w :
  (0 < moving_avg_size cfg)%nat ->
  insertion_frequency cfg <> 0%Z -> debug cfg = false ->
  (fst (hr_percentile cfg) <= 100)%nat ->
  (snd (hr_percentile cfg) <= 100)%nat ->
  exists p' w', next p w = Ok (p', w').
Proof.
  intros HN Hf Hd Hq0 Hq1.
  unfold BiometricProcessor.next.
  assert (Hs : exists p1 w1,
             periodic_sink (set_iteration_count (iteration_count p + 1) p) w
             = Ok (p1, w1)).
  { unfold BiometricProcessor.periodic_sink.
    apply Z.eqb_neq in Hf. rewrite Hf, Hd. cbn [negb].
    destruct (_ mod _ =? 0)%Z; [destruct (last_item _)|]; now do 2 eexists. }
  destruct Hs as (p1 & w1 & ->). cbn [bind fst snd].
  destruct (rolling_statistics_returns p1 HN Hq0 Hq1) as [p' ->].
  cbn [bind]. now do 2 eexists.
Qed.

(** With a usable configuration and consistent statistics the call returns
    normally, whatever the DSP stage does. *)
Lemma calculate_vitals_returns epoch s1 s2 p w :
  (0 < moving_avg_size cfg)%nat ->
  insertion_frequency cfg <> 0%Z -> debug cfg = false ->
  (fst (hr_percentile cfg) <= 100)%nat ->
  (snd (hr_percentile cfg) <= 100)%nat ->
  hr_moving_avg p = None \/ (exists s, hr_std_2 p = Some s) ->
  exists p' w', calculate_vitals epoch s1 s2 p w = Ok (p', w').
Proof.
  intros HN Hf Hdb Hq0 Hq1 Hwf. rewrite calculate_vitals_eq.
  destruct (fuse_returns epoch (extracted p s1 epoch)
              (extracted_2 p s2 epoch) (set_epoch epoch p) Hwf)
    as [p1 ->].
  cbn [bind]. now apply next_returns.
Qed.

(** C8. An exception of the DSP stage never leaves [calculate_vitals]: a
    raising signal 2 is treated as an absent one, a raising signal 1 leaves
    [measurement_1] empty while signal 2 is still extracted and fused, and
    with a usable configuration (a history of positive capacity, a non-zero
    insertion frequency, percentiles within [0, 100]) the call returns
    normally whatever the DSP stage does. *)
Theorem dsp_exceptions_are_contained epoch s1 s2 p w :
  calculate_vitals epoch s1 s2 p w <> Raise DspError
  /\ (forall sig2,
        s2 = Some sig2 -> dsp_stage sig2 = DspRaises ->
        calculate_vitals epoch s1 s2 p w = calculate_vitals epoch s1 None p w)
  /\ (dsp_stage s1 = DspRaises ->
      calculate_vitals epoch s1 s2 p w =
        (p1 <- fuse epoch None (extracted_2 p s2 epoch) (set_epoch epoch p) ;;
         next p1 (if debug cfg then print_exc w else w)))
  /\ ((0 < moving_avg_size cfg)%nat ->
      insertion_frequency cfg <> 0%Z -> debug cfg = false ->
      (fst (hr_percentile cfg) <= 100)%nat ->
      (snd (hr_percentile cfg) <= 100)%nat ->
      hr_moving_avg p = None \/ (exists s, hr_std_2 p = Some s) ->
      exists p' w', calculate_vitals epoch s1 s2 p w = Ok (p', w')).
Proof.
  split; [|split; [|split]].
  - rewrite calculate_vitals_eq.
    destruct (fuse _ _ _ _) as [p1|e] eqn:Hf; cbn [bind].
    + intros Hn. apply next_raises in Hn.
      destruct Hn as [Hn | [Hn | [Hn | Hn]]]; discriminate.
    + intros He. apply fuse_raises in Hf. congruence.
  - intros sig2 -> Hd. rewrite !calculate_vitals_eq.
    cbn [BiometricProcessor.extracted_2].
    now rewrite (extracted_raises p sig2 epoch Hd).
  - intros Hd. rewrite calculate_vitals_eq.
    now rewrite (extracted_raises p s1 epoch Hd), Hd.
  - apply calculate_vitals_returns.
Qed.

Lemma fuse_set_presence b n epoch m1 m2 p :
  fuse epoch m1 m2 (set_presence b n p) =
    match fuse epoch m1 m2 p with
    | Ok p1 => Ok (set_presence b n p1)
    | Raise e => Raise e
    end.
Proof.
  unfold BiometricProcessor.fuse.
  change (clamp (set_presence b n p)) with (clamp p).
  change (candidate_both (set_presence b n p)) with (candidate_both p).
  change (candidate_second (set_presence b n p)) with (candidate_second p).
  destruct m1 as [m1|], m2 as [m2|]; try reflexivity;
    now destruct (clamp p _).
Qed.

Lemma periodic_sink_set_presence b n p w :
  periodic_sink (set_presence b n p) w =
    with_presence b n (periodic_sink p w).
Proof.
  unfold BiometricProcessor.periodic_sink, with_presence.
  cbn [set_presence iteration_count heart_rates epoch combined_measurements
       debug_measurements hr_moving_avg lower_bound upper_bound hr_std_2].
  destruct (insertion_frequency cfg =? 0)%Z; [reflexivity|].
  destruct (_ =? 0)%Z; [|reflexivity].
  destruct (last_item _) as [m|]; [|reflexivity].
  destruct (debug cfg); cbn [negb]; [|reflexivity].
  destruct (isoformat_of _ _); cbn [bind]; [|reflexivity].
  destruct (epoch p); cbn [bind]; [|reflexivity].
  destruct (isoformat_of _ _); cbn [bind]; reflexivity.
Qed.

Lemma rolling_statistics_set_presence b n p :
  rolling_statistics (set_presence b n p) =
    match rolling_statistics p with
    | Ok p' => Ok (set_presence b n p')
    | Raise e => Raise e
    end.
Proof.
  unfold BiometricProcessor.rolling_statistics.
  cbn [set_presence heart_rates].
  destruct (_ <=? _)%nat; [|reflexivity].
  destruct (np_percentile _ _); cbn [bind]; [|reflexivity].
  destruct (np_percentile _ _); cbn [bind]; reflexivity.
Qed.

Lemma next_set_presence b n p w :
  next (set_presence b n p) w = with_presence b n (next p w).
Proof.
  unfold BiometricProcessor.next.
  change (set_iteration_count (iteration_count (set_presence b n p) + 1)
            (set_presence b n p))
    with (set_presence b n (set_iteration_count (iteration_count p + 1) p)).
  rewrite periodic_sink_set_presence.
  destruct (periodic_sink _ w) as [[p1 w1]|e]; cbn [with_presence bind fst snd];
    [|reflexivity].
  rewrite rolling_statistics_set_presence.
  destruct (rolling_statistics p1); reflexivity.
Qed.

Lemma calculate_vitals_set_presence b n epoch s1 s2 p w :
  calculate_vitals epoch s1 s2 (set_presence b n p) w =
    with_presence b n (calculate_vitals epoch s1 s2 p w).
Proof.
  rewrite !calculate_vitals_eq.
  change (extracted (set_presence b n p)) with (extracted p).
  change (extracted_2 (set_presence b n p)) with (extracted_2 p).
  change (set_epoch epoch (set_presence b n p))
    with (set_presence b n (set_epoch epoch p)).
  rewrite fuse_set_presence.
  destruct (fuse _ _ _ _) as [p1|e]; cbn [bind]; [|reflexivity].
  apply next_set_presence.
Qed.

Lemma same_but_presence_eq p q :
  same_but_presence p q ->
  q = set_presence (present q) (not_present_for q) p.
Proof.
  destruct p, q. unfold same_but_presence. cbn.
  intros (-> & -> & -> & -> & -> & -> & -> & -> & ->). reflexivity.
Qed.

Lemma same_but_presence_set b n p : same_but_presence p (set_presence b n p).
Proof. unfold same_but_presence. cbn. repeat split; reflexivity. Qed.

(** C10. [calculate_vitals] neither reads nor writes [present] and
    [not_present_for]: from two states that differ only there, the same
    call raises the same exception or returns states that again differ only
    there, with the same effect on the world, each keeping its own
    [present] and [not_present_for]. *)
Theorem presence_does_not_gate_vitals epoch s1 s2 p q w :
  same_but_presence p q ->
  match calculate_vitals epoch s1 s2 p w,
        calculate_vitals epoch s1 s2 q w with
  | Ok (p', w1), Ok (q', w2) =>
      same_but_presence p' q' /\ w1 = w2
      /\ present p' = present p /\ not_present_for p' = not_present_for p
      /\ present q' = present q /\ not_present_for q' = not_present_for q
  | Raise e1, Raise e2 => e1 = e2
  | _, _ => False
  end.
Proof.
  intros Hsame. rewrite (same_but_presence_eq p q Hsame).
  rewrite calculate_vitals_set_presence.
  destruct (calculate_vitals epoch s1 s2 p w) as [[p' w']|e] eqn:Hc;
    cbn [with_presence]; [|reflexivity].
  split; [apply same_but_presence_set|]. split; [reflexivity|].
  apply calculate_vitals_inv in Hc.
  destruct Hc as (p1 & w1 & Hf & Hn & _).
  apply next_frame in Hn. destruct Hn as (Hp & Hnp & _).
  assert (Hp1 : present p1 = present p /\ not_present_for p1 = not_present_for p).
  { revert Hf. unfold BiometricProcessor.fuse.
    destruct (extracted p s1 epoch), (extracted_2 p s2 epoch);
      try (destruct (clamp _ _); cbn [bind]; [|discriminate]);
      intros H; inversion H; subst; cbn; auto. }
  destruct Hp1 as [Hp1 Hnp1]. cbn.
  repeat split; congruence.
Qed.

(** C9. In debug mode, with a history of positive capacity, on an epoch
    where the insertion condition fires, [next] returns normally, leaves the world untouched (nothing reaches
    [insert_vitals]) and appends one trace record to [debug_measurements]:
    the fields of the last combined measurement with the smoothed heart
    rate in place of its own, both timestamps in ISO form, the last
    heart rates and the bounds, moving average and std band in force.  The
    combined measurement itself keeps its heart rate. *)
Theorem debug_mode_traces_instead_of_persisting p w m e ts current_ts :
  (0 < moving_avg_size cfg)%nat ->
  debug cfg = true ->
  insertion_frequency cfg <> 0%Z ->
  ((iteration_count p + 1) mod insertion_frequency cfg = 0)%Z ->
  last_item (combined_measurements p) = Some m ->
  epoch p = Some e ->
  utc_isoformat (timestamp m) = Some ts ->
  utc_isoformat e = Some current_ts ->
  (fst (hr_percentile cfg) <= 100)%nat ->
  (snd (hr_percentile cfg) <= 100)%nat ->
  exists p',
    next p w = Ok (p', w)
    /\ debug_measurements p' =
         debug_measurements p ++
         [mkDebug (side_of m) (timestamp m) (hrv m) (breathing_rate m)
            ts current_ts
            (np_mean (py_slice_from (heart_rates p)
                        (rolling_average_size cfg * -1)))
            (py_slice_from (heart_rates p) (-25))
            (hr_moving_avg p) (lower_bound p) (upper_bound p) (hr_std_2 p)
            (length (heart_rates p))]
    /\ combined_measurements p' = combined_measurements p.
Proof.
  intros HN Hd Hf Hmod Hlast He Hts Hcur Hq0 Hq1.
  unfold BiometricProcessor.next, BiometricProcessor.periodic_sink.
  cbn [set_iteration_count iteration_count combined_measurements epoch
       heart_rates hr_moving_avg lower_bound upper_bound hr_std_2
       debug_measurements].
  apply Z.eqb_neq in Hf. rewrite Hf, Hmod, Hlast, Hd, He.
  cbn [Z.eqb negb]. unfold isoformat_of. rewrite Hts. cbn [bind].
  rewrite Hcur. cbn [bind fst snd].
  match goal with
  | |- context [rolling_statistics ?q] =>
      destruct (rolling_statistics_returns q HN Hq0 Hq1) as [p' Hr];
      rewrite Hr; pose proof (rolling_statistics_frame _ _ Hr) as Hfr
  end.
  cbn [bind]. exists p'. split; [reflexivity|].
  destruct Hfr as (_ & _ & _ & _ & _ & Hcm & Hdm).
  split; [exact Hdm | exact Hcm].
Qed.

End OneCall.

(** ** The rolling statistics as an invariant *)

Lemma finite_values_length l xs :
  finite_values l = Some xs -> length xs = length l.
Proof.
  revert xs. induction l as [|[|x] t IH]; intros xs H; cbn in H.
  - now inversion H.
  - discriminate.
  - destruct (finite_values t) as [ys|]; [|discriminate].
    inversion H; subst. cbn. now rewrite (IH ys).
Qed.

Lemma finite_values_app l xs x :
  finite_values l = Some xs ->
  finite_values (l ++ [Fin x]) = Some (xs ++ [x]).
Proof.
  revert xs. induction l as [|[|y] t IH]; intros xs H; cbn in H.
  - now inversion H.
  - discriminate.
  - destruct (finite_values t) as [ys|]; [|discriminate].
    inversion H; subst. cbn. now rewrite (IH ys).
Qed.

Lemma finite_values_tl l xs :
  finite_values l = Some xs -> finite_values (tl l) = Some (tl xs).
Proof.
  destruct l as [|[|y] t]; cbn; intros H.
  - now inversion H.
  - discriminate.
  - destruct (finite_values t) as [ys|]; [|discriminate].
    now inversion H.
Qed.

Lemma finite_values_deque_append n l xs x :
  finite_values l = Some xs ->
  finite_values (deque_append n l (Fin x)) = Some (deque_append n xs x).
Proof.
  intros H. unfold deque_append.
  rewrite (finite_values_length l xs H).
  destruct (_ <? _)%nat.
  - now apply finite_values_app.
  - now apply finite_values_tl, finite_values_app.
Qed.

Lemma std_band_nonneg range xs : 0 <= snd range -> 0 <= std_band range xs.
Proof.
  intros Hhi. unfold std_band.
  pose proof (sqrt_pos (Rvariance xs)) as Hs.
  destruct (Rlt_dec _ _); [lra|]. destruct (Rlt_dec _ _); lra.
Qed.

Lemma std_band_clamp_into range xs :
  fst range <= snd range ->
  std_band range xs =
    clamp_into (fst range) (snd range) (2 * sqrt (Rvariance xs)).
Proof.
  intros Hle. unfold std_band, clamp_into, Rmax, Rmin.
  repeat destruct (Rlt_dec _ _); repeat destruct (Rle_dec _ _); lra.
Qed.

Section Invariant.

Variable cfg : Config.
Variable dsp_stage : list Z -> dsp_outcome.
Variable utc_isoformat : Z -> option string.

Local Abbreviation N := (moving_avg_size cfg).

Lemma rolling_statistics_full p p' xs :
  finite_values (heart_rates p) = Some xs ->
  xs <> [] -> (N <= length xs)%nat ->
  rolling_statistics cfg p = Ok p' ->
  statistics_of cfg xs p' /\ heart_rates p' = heart_rates p.
Proof.
  intros Hfin Hne Hlen. unfold rolling_statistics, np_percentile.
  rewrite <- (finite_values_length _ _ Hfin).
  apply Nat.leb_le in Hlen. rewrite Hlen.
  destruct (100 <? fst _)%nat; [discriminate|].
  destruct (100 <? snd _)%nat;
    [destruct (finite_values _) as [[|? ?]|]; discriminate|].
  unfold np_mean, np_std. rewrite Hfin.
  destruct xs as [|x xs']; [congruence|]. cbn [bind fmul fsub fadd lift2].
  intros H. inversion H; subst; clear H. split; [|reflexivity].
  unfold statistics_of, plausibility_band, std_band, set_statistics, fgt, flt,
    Rltb.
  cbn [lower_bound upper_bound hr_moving_avg hr_std_2].
  destruct (Rlt_dec (Rpercentile _ _ - Rpercentile _ _) 25);
    cbn [fst snd]; (split; [reflexivity|]); (split; [reflexivity|]);
    (split; [reflexivity|]);
    destruct (Rlt_dec _ (fst (hr_std_range cfg))); try reflexivity;
    destruct (Rlt_dec (snd (hr_std_range cfg)) _); reflexivity.
Qed.

Lemma rolling_statistics_short p :
  (length (heart_rates p) < N)%nat -> rolling_statistics cfg p = Ok p.
Proof.
  intros Hlt. unfold rolling_statistics.
  apply Nat.leb_gt in Hlt. now rewrite Hlt.
Qed.

(** The clamp, on real values and a non-negative band. *)
Lemma clamp_within p a s c :
  hr_moving_avg p = Some (Fin a) -> hr_std_2 p = Some (Fin s) -> 0 <= s ->
  exists h, clamp p (Fin c) = Ok (Fin h) /\ a - s <= h <= a + s.
Proof.
  intros Ha Hs Hpos. unfold clamp. rewrite Ha, Hs.
  unfold fgt, flt, fsub, fadd, fabs, lift2, Rltb.
  destruct (Rlt_dec s (Rabs (c - a))) as [Hout|Hin].
  - destruct (Rlt_dec c a); eexists; (split; [reflexivity|lra]).
  - exists c. split; [reflexivity|].
    apply Rnot_lt_le in Hin. unfold Rabs in Hin.
    destruct (Rcase_abs (c - a)); lra.
Qed.

Lemma clamp_fin p c r :
  invariant cfg p -> clamp p (Fin c) = Ok r -> exists h, r = Fin h.
Proof.
  intros (xs & _ & [[_ (_ & _ & Hav & _)] | [_ (_ & _ & Hav & Hsd)]]).
  - rewrite (clamp_unset p _ Hav). intros H. inversion H. now eexists.
  - unfold clamp. rewrite Hav, Hsd.
    unfold fgt, flt, fsub, fadd, fabs, lift2.
    destruct (Rltb _ _); [destruct (Rltb _ _)|]; intros H; inversion H;
      now eexists.
Qed.

Lemma invariant_avg p :
  invariant cfg p ->
  hr_moving_avg p = None \/ exists a, hr_moving_avg p = Some (Fin a).
Proof.
  intros (xs & _ & [[_ (_ & _ & Hav & _)] | [_ (_ & _ & Hav & _)]]);
    [now left | right; eexists; exact Hav].
Qed.

Lemma candidate_both_fin p m1 m2 b1 b2 :
  invariant cfg p -> heart_rate m1 = Fin b1 -> heart_rate m2 = Fin b2 ->
  exists c, candidate_both p m1 m2 = Fin c.
Proof.
  intros Hinv H1 H2. unfold candidate_both. rewrite H1, H2.
  cbn [fadd lift2]. rewrite fdiv_two.
  destruct (invariant_avg p Hinv) as [-> | [a ->]]; [now eexists|].
  cbn [fadd lift2]. rewrite fdiv_two. now eexists.
Qed.

Lemma candidate_second_fin p m2 b2 :
  invariant cfg p -> heart_rate m2 = Fin b2 ->
  exists c, candidate_second p m2 = Fin c.
Proof.
  intros Hinv H2. unfold candidate_second. rewrite H2.
  destruct (invariant_avg p Hinv) as [-> | [a ->]]; [now eexists|].
  cbn [fadd lift2]. rewrite fdiv_two. now eexists.
Qed.

Lemma fuse_inv epoch m1 m2 p p1 :
  fuse cfg epoch m1 m2 p = Ok p1 ->
  match candidate_of p m1 m2 with
  | None => p1 = p
  | Some c =>
      exists hr m,
        clamp p c = Ok hr /\ p1 = record_measurement cfg p hr m
        /\ heart_rate m = hr
  end.
Proof.
  unfold fuse, candidate_of.
  destruct m1 as [m1|], m2 as [m2|];
    try (destruct (clamp p _) as [hr|] eqn:Hc; cbn [bind]; [|discriminate]);
    intros H; inversion H; subst; try reflexivity;
    do 2 eexists; (split; [reflexivity|]); (split; [reflexivity|]);
    reflexivity.
Qed.

Lemma candidate_of_fin p m1 m2 c :
  invariant cfg p -> fin_heart_rate m1 -> fin_heart_rate m2 ->
  candidate_of p m1 m2 = Some c -> exists x, c = Fin x.
Proof.
  intros Hinv H1 H2. unfold candidate_of.
  destruct m1 as [m1|], m2 as [m2|]; cbn in H1, H2; intros H;
    inversion H; subst; clear H.
  - destruct H1 as [b1 H1], H2 as [b2 H2].
    destruct (candidate_both_fin p m1 m2 b1 b2 Hinv H1 H2) as [c Hc].
    now exists c.
  - exact H1.
  - destruct H2 as [b2 H2].
    destruct (candidate_second_fin p m2 b2 Hinv H2) as [c Hc]. now exists c.
Qed.

Lemma fuse_history epoch m1 m2 p p1 :
  invariant cfg p -> fin_heart_rate m1 -> fin_heart_rate m2 ->
  fuse cfg epoch m1 m2 p = Ok p1 ->
  exists xs, history_ok cfg xs p1.
Proof.
  intros Hinv H1 H2 Hf. apply fuse_inv in Hf.
  destruct Hinv as (xs & Hfin & Hcases).
  assert (Hinv : invariant cfg p) by (exists xs; auto).
  destruct (candidate_of p m1 m2) as [c|] eqn:Hc.
  - destruct Hf as (hr & m & Hcl & -> & _).
    destruct (candidate_of_fin p m1 m2 c Hinv H1 H2 Hc) as [x ->].
    destruct (clamp_fin p x hr Hinv Hcl) as [h ->].
    exists (deque_append N xs h). unfold history_ok.
    cbn [record_measurement heart_rates].
    split; [now apply finite_values_deque_append|].
    assert (Hle : (length xs <= N)%nat) by (destruct Hcases; lia).
    rewrite (length_deque_append N xs h Hle).
    split; [lia|]. intros Hlt.
    destruct Hcases as [[_ Hun] | [Heq _]]; [exact Hun | lia].
  - subst p1. exists xs. unfold history_ok. split; [exact Hfin|].
    split; [destruct Hcases; lia|]. intros Hlt.
    destruct Hcases as [[_ Hun] | [Heq _]]; [exact Hun | lia].
Qed.

Lemma next_invariant p1 w p' w' xs :
  (0 < N)%nat -> history_ok cfg xs p1 ->
  next cfg utc_isoformat p1 w = Ok (p', w') ->
  invariant cfg p' /\ heart_rates p' = heart_rates p1.
Proof.
  intros HN (Hfin & Hle & Hun). unfold next.
  destruct (periodic_sink _ _ _ w) as [[p2 w2]|] eqn:Hs; cbn [bind fst snd];
    [|discriminate].
  destruct (rolling_statistics cfg p2) as [p3|] eqn:Hr; cbn [bind];
    [|discriminate].
  intros H; inversion H; subst; clear H.
  apply periodic_sink_frame in Hs. cbn in Hs.
  destruct Hs as (_ & _ & _ & _ & Hh & Hlo & Hhi & Hav & Hsd & _).
  rewrite <- Hh in Hfin.
  destruct (Nat.eq_dec (length xs) N) as [Heq|Hne].
  - destruct (rolling_statistics_full p2 p' xs Hfin) as [Hst Hh'];
      [destruct xs; [simpl in Heq; lia | discriminate] | lia | exact Hr |].
    split; [|congruence].
    exists xs. rewrite Hh'. split; [exact Hfin|]. right. now split.
  - assert (Hlt : (length xs < N)%nat) by lia.
    rewrite rolling_statistics_short in Hr
      by now rewrite <- (finite_values_length _ _ Hfin).
    inversion Hr; subst. split; [|exact Hh].
    exists xs. split; [exact Hfin|]. left. split; [exact Hlt|].
    destruct (Hun Hlt) as (? & ? & ? & ?).
    unfold statistics_unset. repeat split; congruence.
Qed.

Lemma calculate_vitals_invariant epoch s1 s2 p w p' w' :
  (0 < N)%nat -> invariant cfg p ->
  calculate_vitals cfg dsp_stage utc_isoformat epoch s1 s2 p w = Ok (p', w') ->
  invariant cfg p'.
Proof.
  intros HN Hinv Hc. apply calculate_vitals_inv in Hc.
  destruct Hc as (p1 & w1 & Hf & Hn & _).
  assert (H1 : fin_heart_rate (extracted cfg dsp_stage p s1 epoch)).
  { destruct (extracted _ _ p s1 epoch) as [m|] eqn:E; [|exact I].
    apply extracted_some in E. destruct E as (h & b & _ & _ & _ & E & _).
    now exists b. }
  assert (H2 : fin_heart_rate (extracted_2 cfg dsp_stage p s2 epoch)).
  { destruct s2 as [sig2|]; [|exact I]. cbn [extracted_2].
    destruct (extracted _ _ p sig2 epoch) as [m|] eqn:E; [|exact I].
    apply extracted_some in E. destruct E as (h & b & _ & _ & _ & E & _).
    now exists b. }
  destruct (fuse_history epoch _ _ (set_epoch epoch p) p1 Hinv H1 H2 Hf)
    as [xs Hok].
  exact (proj1 (next_invariant p1 w1 p' w' xs HN Hok Hn)).
Qed.

Lemma detect_presence_invariant signal p p' :
  (0 < N)%nat -> invariant cfg p ->
  detect_presence signal p = Ok p' -> invariant cfg p'.
Proof.
  intros HN Hinv. unfold detect_presence.
  destruct (np_ptp signal) as [r|]; cbn [bind]; [|discriminate].
  destruct (_ <? _)%Z; [intros H; inversion H; subst; exact Hinv|].
  destruct (_ =? _)%Z; intros H; inversion H; subst; [|exact Hinv].
  exists []. split; [reflexivity|]. left. split; [exact HN|].
  unfold statistics_unset. cbn. auto.
Qed.

Lemma reachable_invariant p w :
  (0 < N)%nat -> reachable cfg dsp_stage utc_isoformat p w ->
  invariant cfg p.
Proof.
  intros HN Hr. induction Hr as [|ev p w p' w' Hr IH Hstep].
  - exists []. split; [reflexivity|]. left. split; [exact HN|].
    unfold statistics_unset. cbn. auto.
  - destruct ev as [signal|epoch s1 s2]; cbn [step] in Hstep.
    + destruct (detect_presence signal p) as [q|] eqn:Hd; cbn [bind] in Hstep;
        [|discriminate].
      inversion Hstep; subst.
      now apply (detect_presence_invariant signal p).
    + now apply (calculate_vitals_invariant epoch s1 s2 p w p' w').
Qed.

End Invariant.

Section ReachableStates.

Variable cfg : Config.
Variable dsp_stage : list Z -> dsp_outcome.
Variable utc_isoformat : Z -> option string.

Local Abbreviation N := (moving_avg_size cfg).
Local Abbreviation reachable := (reachable cfg dsp_stage utc_isoformat).
Local Abbreviation calculate_vitals :=
  (calculate_vitals cfg dsp_stage utc_isoformat).
Local Abbreviation extracted := (extracted cfg dsp_stage).
Local Abbreviation extracted_2 := (extracted_2 cfg dsp_stage).

(** C2. After a call of [calculate_vitals] on a reachable processor the
    history holds at most [moving_avg_size] heart rates, and each of
    [lower_bound], [upper_bound], [hr_moving_avg], [hr_std_2] is set exactly
    when the history is full.  They are then the statistics of the history
    as it is after this call: its mean, its percentile band (replaced by
    the band of width 25 around the mean when narrower than 25), and twice
    its standard deviation clamped into [hr_std_range]. *)
Theorem statistics_track_full_history epoch s1 s2 p w p' w' :
  (0 < N)%nat ->
  fst (hr_std_range cfg) <= snd (hr_std_range cfg) ->
  reachable p w ->
  calculate_vitals epoch s1 s2 p w = Ok (p', w') ->
  (length (heart_rates p') <= N)%nat
  /\ (lower_bound p' <> None <-> length (heart_rates p') = N)
  /\ (upper_bound p' <> None <-> length (heart_rates p') = N)
  /\ (hr_moving_avg p' <> None <-> length (heart_rates p') = N)
  /\ (hr_std_2 p' <> None <-> length (heart_rates p') = N)
  /\ (length (heart_rates p') = N ->
      exists xs,
        finite_values (heart_rates p') = Some xs
        /\ hr_moving_avg p' = Some (Fin (Rmean xs))
        /\ lower_bound p' =
             Some (Fin (fst (plausibility_band xs (fst (hr_percentile cfg))
                               (snd (hr_percentile cfg)))))
        /\ upper_bound p' =
             Some (Fin (snd (plausibility_band xs (fst (hr_percentile cfg))
                               (snd (hr_percentile cfg)))))
        /\ hr_std_2 p' =
             Some (Fin (clamp_into (fst (hr_std_range cfg))
                          (snd (hr_std_range cfg))
                          (2 * sqrt (Rvariance xs))))).
Proof.
  intros HN Hrange Hreach Hcalc.
  pose proof (reachable_invariant cfg dsp_stage utc_isoformat p w HN Hreach)
    as Hinv.
  pose proof (calculate_vitals_invariant cfg dsp_stage utc_isoformat
                epoch s1 s2 p w p' w' HN Hinv Hcalc) as (xs & Hfin & Hcases).
  rewrite <- (finite_values_length _ _ Hfin).
  destruct Hcases as [[Hlt (Hlo & Hhi & Hav & Hsd)]
                     | [Heq (Hlo & Hhi & Hav & Hsd)]].
  - rewrite Hlo, Hhi, Hav, Hsd.
    split; [lia|]. repeat (split; [split; [congruence | lia]|]). lia.
  - rewrite Hlo, Hhi, Hav, Hsd.
    split; [lia|]. repeat (split; [split; [auto | discriminate]|]).
    intros _. exists xs. split; [exact Hfin|].
    rewrite <- (std_band_clamp_into _ _ Hrange). auto.
Qed.

(** C1. On a reachable processor whose moving average and std band are set,
    a call of [calculate_vitals] that produces a fused measurement appends
    to [heart_rates], and stores in the combined measurement it appends, a
    heart rate within [hr_moving_avg - hr_std_2, hr_moving_avg + hr_std_2],
    whatever the BPMs extracted from the signals. *)
Theorem clamped_heart_rate_within_band epoch s1 s2 p w p' w' avg std_2 :
  (0 < N)%nat ->
  0 <= snd (hr_std_range cfg) ->
  reachable p w ->
  hr_moving_avg p = Some avg -> hr_std_2 p = Some std_2 ->
  calculate_vitals epoch s1 s2 p w = Ok (p', w') ->
  produces cfg dsp_stage p (CalculateVitals epoch s1 s2) = true ->
  exists a s h p1 m,
    avg = Fin a /\ std_2 = Fin s
    /\ fuse cfg epoch (extracted p s1 epoch) (extracted_2 p s2 epoch)
         (set_epoch epoch p) = Ok p1
    /\ last_item (heart_rates p1) = Some (Fin h)
    /\ last_item (combined_measurements p1) = Some m
    /\ heart_rate m = Fin h
    /\ last_item (heart_rates p') = Some (Fin h)
    /\ a - s <= h <= a + s.
Proof.
  intros HN Hhi Hreach Havg Hstd Hcalc Hprod.
  pose proof (reachable_invariant cfg dsp_stage utc_isoformat p w HN Hreach)
    as Hinv.
  assert (Hinv' := Hinv).
  destruct Hinv' as (xs & Hfin & [[_ (_ & _ & Hav & _)]
                                 | [_ (_ & _ & Hav & Hsd)]]);
    [congruence|].
  rewrite Havg in Hav. rewrite Hstd in Hsd.
  inversion Hav; subst avg. inversion Hsd; subst std_2. clear Hav Hsd.
  apply calculate_vitals_inv in Hcalc.
  destruct Hcalc as (p1 & w1 & Hf & Hn & _ & Hh).
  pose proof (fuse_inv cfg epoch _ _ _ _ Hf) as Hfi.
  assert (H1 : fin_heart_rate (extracted p s1 epoch)).
  { destruct (extracted p s1 epoch) as [m|] eqn:E; [|exact I].
    apply extracted_some in E. destruct E as (h & b & _ & _ & _ & E & _).
    now exists b. }
  assert (H2 : fin_heart_rate (extracted_2 p s2 epoch)).
  { destruct s2 as [sig2|]; [|exact I]. cbn [BiometricProcessor.extracted_2].
    destruct (extracted p sig2 epoch) as [m|] eqn:E; [|exact I].
    apply extracted_some in E. destruct E as (h & b & _ & _ & _ & E & _).
    now exists b. }
  destruct (candidate_of (set_epoch epoch p) _ _) as [c|] eqn:Hc.
  2:{ unfold candidate_of in Hc. cbn [produces] in Hprod.
      destruct (extracted p s1 epoch), (extracted_2 p s2 epoch);
        discriminate. }
  destruct Hfi as (hr & m & Hcl & Hp1 & Hm).
  destruct (candidate_of_fin cfg (set_epoch epoch p) _ _ c Hinv H1 H2 Hc)
    as [x ->].
  destruct (clamp_within p (Rmean xs) (std_band (hr_std_range cfg) xs) x
              Havg Hstd (std_band_nonneg _ _ Hhi)) as (h & Hcl' & Hb).
  change (clamp (set_epoch epoch p)) with (clamp p) in Hcl.
  rewrite Hcl' in Hcl.
  assert (Hhr : hr = Fin h) by congruence. clear Hcl.
  rewrite Hhr in Hm, Hp1. clear Hhr.
  assert (Hl : last_item (heart_rates p1) = Some (Fin h)).
  { rewrite Hp1. cbn [record_measurement heart_rates].
    now apply last_item_deque_append. }
  exists (Rmean xs), (std_band (hr_std_range cfg) xs), h, p1, m.
  split; [reflexivity|]. split; [reflexivity|]. split; [exact Hf|].
  split; [exact Hl|].
  split; [rewrite Hp1; cbn [record_measurement combined_measurements];
          apply last_item_deque_append; lia|].
  split; [exact Hm|]. split; [now rewrite Hh | exact Hb].
Qed.

End ReachableStates.

(** ** The periodic sink *)

Section PeriodicSink.

Variable cfg : Config.
Variable dsp_stage : list Z -> dsp_outcome.
Variable utc_isoformat : Z -> option string.

Local Abbreviation freq := (insertion_frequency cfg).
Local Abbreviation runs := (run cfg dsp_stage utc_isoformat).
Local Abbreviation calculate_vitals :=
  (calculate_vitals cfg dsp_stage utc_isoformat).
Local Abbreviation smoothed hrs :=
  (np_mean (py_slice_from hrs (rolling_average_size cfg * -1))).

Hypothesis not_debug : debug cfg = false.

Lemma next_sink p1 w p' w' :
  next cfg utc_isoformat p1 w = Ok (p', w') ->
  heart_rates p' = heart_rates p1
  /\ iteration_count p' = (iteration_count p1 + 1)%Z
  /\ match ((iteration_count p1 + 1) mod freq =? 0)%Z,
          last_item (combined_measurements p1) with
     | true, Some m0 =>
         w' = insert_vitals (set_heart_rate (smoothed (heart_rates p1)) m0) w
         /\ combined_measurements p' =
              update_last (set_heart_rate (smoothed (heart_rates p1)))
                (combined_measurements p1)
     | _, _ => w' = w /\ combined_measurements p' = combined_measurements p1
     end.
Proof.
  intros Hn. pose proof (next_frame _ _ _ _ _ _ Hn) as (_ & _ & Hic & _ & Hh & _).
  split; [exact Hh|]. split; [exact Hic|].
  revert Hn. unfold next, periodic_sink.
  cbn [set_iteration_count iteration_count combined_measurements heart_rates].
  destruct (freq =? 0)%Z; [discriminate|].
  rewrite not_debug. cbn [negb].
  destruct (_ =? 0)%Z; [destruct (last_item _) as [m0|]|];
    cbn [bind fst snd];
    (destruct (rolling_statistics cfg _) as [p2|] eqn:Hr; cbn [bind];
     [|discriminate]);
    intros H; inversion H; subst; clear H;
    apply rolling_statistics_frame in Hr; cbn in Hr;
    destruct Hr as (_ & _ & _ & _ & _ & Hcm & _); auto.
Qed.

Lemma fuse_combined epoch m1 m2 p p1 :
  fuse cfg epoch m1 m2 p = Ok p1 ->
  iteration_count p1 = iteration_count p
  /\ (combined_measurements p <> [] -> combined_measurements p1 <> [])
  /\ (candidate_of p m1 m2 <> None -> combined_measurements p1 <> []).
Proof.
  intros Hf. apply fuse_inv in Hf.
  destruct (candidate_of p m1 m2) as [c|].
  - destruct Hf as (hr & m & _ & -> & _).
    cbn [record_measurement iteration_count combined_measurements].
    assert (Hne : deque_append 100 (combined_measurements p) m <> []).
    { intros E.
      pose proof (last_item_deque_append 100 (combined_measurements p) m
                    ltac:(lia)) as Hl.
      rewrite E in Hl. discriminate. }
    auto.
  - subst p1. repeat split; auto; congruence.
Qed.

Lemma update_last_nonempty {A} (f : A -> A) l :
  l <> [] -> update_last f l <> [].
Proof.
  intros Hne E. apply (f_equal (@length A)) in E.
  rewrite length_update_last in E. destruct l; [congruence|discriminate].
Qed.

(** What one epoch does to the sink. *)
Lemma calculate_vitals_sink epoch s1 s2 p w p' w' :
  calculate_vitals epoch s1 s2 p w = Ok (p', w') ->
  iteration_count p' = (iteration_count p + 1)%Z
  /\ (produces cfg dsp_stage p (CalculateVitals epoch s1 s2) = true
      \/ combined_measurements p <> [] -> combined_measurements p' <> [])
  /\ (if ((iteration_count p + 1) mod freq =? 0)%Z
      then (combined_measurements p' = [] /\ vitals_db w' = vitals_db w)
           \/ (exists m,
                 vitals_db w' = vitals_db w ++ [m]
                 /\ last_item (combined_measurements p') = Some m
                 /\ heart_rate m = smoothed (heart_rates p'))
      else vitals_db w' = vitals_db w).
Proof.
  intros Hc. apply calculate_vitals_inv in Hc.
  destruct Hc as (p1 & w1 & Hf & Hn & Hw1 & _).
  apply fuse_combined in Hf. cbn [set_epoch iteration_count] in Hf.
  change (combined_measurements (set_epoch epoch p))
    with (combined_measurements p) in Hf.
  destruct Hf as (Hic & Hkeep & Hnew).
  apply next_sink in Hn. destruct Hn as (Hh & Hic' & Hsink).
  rewrite Hic in *. split; [exact Hic'|].
  assert (Hne : produces cfg dsp_stage p (CalculateVitals epoch s1 s2) = true
                \/ combined_measurements p <> [] ->
                combined_measurements p1 <> []).
  { intros [Hp | Hp]; [|now apply Hkeep]. apply Hnew.
    cbn [produces] in Hp. unfold candidate_of.
    destruct (extracted _ _ p s1 epoch), (extracted_2 _ _ p s2 epoch);
      congruence. }
  destruct (_ =? 0)%Z.
  - destruct (last_item (combined_measurements p1)) as [m0|] eqn:Hl.
    + destruct Hsink as [-> Hcm]. split.
      * intros Hp. rewrite Hcm. apply update_last_nonempty. now apply Hne.
      * right. eexists. cbn [insert_vitals vitals_db]. rewrite Hw1.
        split; [reflexivity|].
        rewrite Hcm, last_item_update_last, Hl. cbn [option_map].
        split; [reflexivity|]. cbn. now rewrite Hh.
    + destruct Hsink as [-> Hcm]. rewrite Hcm. split; [exact Hne|].
      left. split; [|exact Hw1].
      destruct (combined_measurements p1) as [|x l]; [reflexivity|].
      destruct (last_item_nonempty (x :: l)) as [y Hy]; congruence.
  - destruct Hsink as [-> Hcm]. rewrite Hcm. split; [exact Hne | exact Hw1].
Qed.

Lemma mod_succ a f :
  (0 < f)%Z -> (a mod f + 1 < f)%Z -> ((a + 1) mod f = a mod f + 1)%Z.
Proof.
  intros Hf Hlt. symmetry. apply Z.mod_unique with (q := (a / f)%Z).
  - left. pose proof (Z.mod_pos_bound a f Hf). lia.
  - pose proof (Z.div_mod a f ltac:(lia)). lia.
Qed.

Lemma mod_succ_wrap a f :
  (0 < f)%Z -> (a mod f + 1 = f)%Z -> ((a + 1) mod f = 0)%Z.
Proof.
  intros Hf Heq. symmetry. apply Z.mod_unique with (q := (a / f + 1)%Z).
  - left. lia.
  - pose proof (Z.div_mod a f ltac:(lia)). lia.
Qed.

Lemma run_app_inv evs1 : forall evs2 p w r,
  runs (evs1 ++ evs2) p w = Ok r ->
  exists p1 w1, runs evs1 p w = Ok (p1, w1) /\ runs evs2 p1 w1 = Ok r.
Proof.
  induction evs1 as [|ev evs1 IH]; intros evs2 p w r Hrun.
  - exists p, w. now split.
  - cbn [app run] in *.
    destruct (step _ _ _ ev p w) as [[q v]|e]; cbn [bind fst snd] in *;
      [now apply IH | discriminate].
Qed.

Lemma produces_any_app evs1 : forall evs2 p w p1 w1,
  runs evs1 p w = Ok (p1, w1) ->
  produces_any cfg dsp_stage utc_isoformat (evs1 ++ evs2) p w =
    produces_any cfg dsp_stage utc_isoformat evs1 p w
    || produces_any cfg dsp_stage utc_isoformat evs2 p1 w1.
Proof.
  induction evs1 as [|ev evs1 IH]; intros evs2 p w p1 w1 Hrun.
  - cbn in Hrun. inversion Hrun; subst. reflexivity.
  - cbn [app run produces_any] in *.
    destruct (step _ _ _ ev p w) as [[q v]|e]; cbn [bind fst snd] in *;
      [|discriminate].
    rewrite (IH evs2 q v p1 w1 Hrun). now rewrite orb_assoc.
Qed.

(** Epochs that stay short of the next multiple insert nothing. *)
Lemma window_quiet evs : forall p w p' w',
  (0 < freq)%Z ->
  forallb is_calculate_vitals evs = true ->
  (iteration_count p mod freq + Z.of_nat (length evs) < freq)%Z ->
  runs evs p w = Ok (p', w') ->
  vitals_db w' = vitals_db w
  /\ iteration_count p' = (iteration_count p + Z.of_nat (length evs))%Z
  /\ (iteration_count p' mod freq =
        iteration_count p mod freq + Z.of_nat (length evs))%Z
  /\ (produces_any cfg dsp_stage utc_isoformat evs p w = true
      \/ combined_measurements p <> [] -> combined_measurements p' <> []).
Proof.
  induction evs as [|ev rest IH]; intros p w p' w' Hf Hall Hlt Hrun.
  - cbn in Hrun. inversion Hrun; subst. cbn [length produces_any].
    rewrite !Z.add_0_r. repeat split; auto. intros [H|H]; [discriminate|auto].
  - cbn [forallb] in Hall. apply andb_true_iff in Hall.
    destruct Hall as [Hev Hall].
    destruct ev as [signal|epoch s1 s2]; [discriminate|].
    cbn [run step produces_any] in *.
    destruct (calculate_vitals epoch s1 s2 p w) as [[q v]|e] eqn:Hc;
      cbn [bind fst snd] in Hrun; [|discriminate].
    apply calculate_vitals_sink in Hc. destruct Hc as (Hic & Hne & Hsink).
    cbn [length] in Hlt. rewrite Nat2Z.inj_succ in Hlt.
    pose proof (Z.mod_pos_bound (iteration_count p) freq Hf) as Hb.
    assert (Hm : ((iteration_count p + 1) mod freq =
                  iteration_count p mod freq + 1)%Z)
      by (apply mod_succ; lia).
    assert (E : ((iteration_count p + 1) mod freq =? 0)%Z = false)
      by (apply Z.eqb_neq; lia).
    rewrite E in Hsink.
    destruct (IH q v p' w' Hf Hall) as (Hdb & Hic' & Hmod & Hne');
      [rewrite Hic, Hm; lia | exact Hrun |].
    cbn [length]. rewrite Nat2Z.inj_succ.
    split; [congruence|]. split; [lia|]. split; [rewrite Hmod, Hic, Hm; lia|].
    intros Hp. apply Hne'.
    destruct Hp as [Hp | Hp].
    + apply orb_true_iff in Hp. destruct Hp as [Hp | Hp]; [|now left].
      right. apply Hne. now left.
    + right. apply Hne. now right.
Qed.

(** C3. Outside debug mode, an epoch calls [insert_vitals] exactly when it
    brings [iteration_count] to a multiple of [insertion_frequency] and a
    combined measurement exists, and then once: with the most recent
    combined measurement, whose heart rate has been overwritten by the mean
    of the last [rolling_average_size] entries of [heart_rates].  Hence,
    over a window of [insertion_frequency] epochs that starts at a multiple,
    [insert_vitals] is not called before the last epoch and is called once
    there when a measurement was produced in the window (or was left from
    an earlier one). *)
Theorem vitals_inserted_once_per_window evs p w p' w' :
  (0 < freq)%Z -> (0 < rolling_average_size cfg)%Z ->
  (iteration_count p mod freq = 0)%Z ->
  forallb is_calculate_vitals evs = true ->
  length evs = Z.to_nat freq ->
  runs evs p w = Ok (p', w') ->
  (forall epoch s1 s2 q v q' v',
      calculate_vitals epoch s1 s2 q v = Ok (q', v') ->
      iteration_count q' = (iteration_count q + 1)%Z
      /\ ((iteration_count q' mod freq <> 0)%Z
          \/ combined_measurements q' = [] ->
          vitals_db v' = vitals_db v)
      /\ ((iteration_count q' mod freq = 0)%Z ->
          combined_measurements q' <> [] ->
          exists m,
            vitals_db v' = vitals_db v ++ [m]
            /\ last_item (combined_measurements q') = Some m
            /\ heart_rate m =
                 np_mean (last_entries (Z.to_nat (rolling_average_size cfg))
                            (heart_rates q'))))
  /\ iteration_count p' = (iteration_count p + freq)%Z
  /\ (iteration_count p' mod freq = 0)%Z
  /\ (forall evs1 evs2 p1 w1,
        evs = evs1 ++ evs2 -> evs2 <> [] -> runs evs1 p w = Ok (p1, w1) ->
        vitals_db w1 = vitals_db w
        /\ (iteration_count p1 mod freq = Z.of_nat (length evs1))%Z)
  /\ (vitals_db w' = vitals_db w
      \/ exists m, vitals_db w' = vitals_db w ++ [m])
  /\ (produces_any cfg dsp_stage utc_isoformat evs p w = true
      \/ combined_measurements p <> [] ->
      exists m,
        vitals_db w' = vitals_db w ++ [m]
        /\ last_item (combined_measurements p') = Some m
        /\ heart_rate m =
             np_mean (last_entries (Z.to_nat (rolling_average_size cfg))
                        (heart_rates p'))).
Proof.
  intros Hf Hk Hstart Hall Hlen Hrun.
  split.
  { intros epoch s1 s2 q v q' v' Hc.
    apply calculate_vitals_sink in Hc. destruct Hc as (Hic & _ & Hsink).
    rewrite <- Hic in Hsink. split; [exact Hic|].
    destruct (_ =? 0)%Z eqn:E.
    - apply Z.eqb_eq in E. split.
      + intros [Hm | Hnil]; [contradiction|].
        destruct Hsink as [[_ Hdb] | (m & _ & Hl & _)]; [exact Hdb|].
        rewrite Hnil in Hl. discriminate.
      + intros _ Hne.
        destruct Hsink as [[Hnil _] | (m & Hdb & Hl & Hhr)]; [contradiction|].
        exists m. split; [exact Hdb|]. split; [exact Hl|].
        now rewrite <- py_slice_last_entries.
    - apply Z.eqb_neq in E. split; [intros _; exact Hsink|].
      intros Hm. contradiction. }
  assert (Hprefix : forall evs1 evs2 p1 w1,
             evs = evs1 ++ evs2 -> evs2 <> [] ->
             runs evs1 p w = Ok (p1, w1) ->
             vitals_db w1 = vitals_db w
             /\ iteration_count p1 =
                  (iteration_count p + Z.of_nat (length evs1))%Z
             /\ (iteration_count p1 mod freq = Z.of_nat (length evs1))%Z
             /\ (produces_any cfg dsp_stage utc_isoformat evs1 p w = true
                 \/ combined_measurements p <> [] ->
                 combined_measurements p1 <> [])).
  { intros evs1 evs2 p1 w1 -> Hne Hrun1.
    rewrite forallb_app in Hall. apply andb_true_iff in Hall.
    rewrite length_app in Hlen.
    assert (0 < length evs2)%nat by (destruct evs2; [congruence|cbn; lia]).
    destruct (window_quiet evs1 p w p1 w1 Hf (proj1 Hall)) as (? & ? & Hm & ?);
      [rewrite Hstart; lia | exact Hrun1 |].
    rewrite Hstart in Hm. auto. }
  destruct (exists_last (l := evs)) as (front & lastev & ->).
  { intros ->. cbn in Hlen. lia. }
  destruct (run_app_inv front [lastev] p w _ Hrun) as (p1 & w1 & Hrun1 & Hlast).
  destruct (Hprefix front [lastev] p1 w1 eq_refl ltac:(discriminate) Hrun1)
    as (Hdb1 & Hic1 & Hmod1 & Hne1).
  rewrite (produces_any_app front [lastev] p w p1 w1 Hrun1).
  rewrite forallb_app in Hall. apply andb_true_iff in Hall.
  destruct Hall as [_ Hlastev]. cbn [forallb] in Hlastev.
  destruct lastev as [signal|epoch s1 s2]; [discriminate|].
  cbn [run step produces_any] in *.
  destruct (calculate_vitals epoch s1 s2 p1 w1) as [[q v]|e] eqn:Hc;
    cbn [bind fst snd] in Hlast; [|discriminate].
  inversion Hlast; subst q v; clear Hlast.
  apply calculate_vitals_sink in Hc. destruct Hc as (Hic & Hne & Hsink).
  rewrite length_app in Hlen. cbn [length] in Hlen.
  assert (Hwrap : ((iteration_count p1 + 1) mod freq = 0)%Z)
    by (apply mod_succ_wrap; lia).
  rewrite Hwrap in Hsink. cbn [Z.eqb] in Hsink.
  split; [lia|]. split; [now rewrite Hic|].
  split; [intros evs1 evs2 p2 w2 He Hne2 Hr2;
          destruct (Hprefix evs1 evs2 p2 w2 He Hne2 Hr2) as (? & ? & ? & ?);
          auto|].
  split.
  - destruct Hsink as [[_ Hdb] | (m & Hdb & _)]; [left | right; exists m];
      congruence.
  - intros Hp.
    assert (Hne' : combined_measurements p' <> []).
    { apply Hne. destruct Hp as [Hp | Hp].
      - apply orb_true_iff in Hp. destruct Hp as [Hp | Hp].
        + right. apply Hne1. now left.
        + rewrite orb_false_r in Hp. now left.
      - right. apply Hne1. now right. }
    destruct Hsink as [[Hnil _] | (m & Hdb & Hl & Hhr)]; [congruence|].
    exists m. split; [congruence|]. split; [exact Hl|].
    now rewrite <- py_slice_last_entries.
Qed.

End PeriodicSink.

(** ** Running the small instance *)

(** Decide the comparisons of reals that linear arithmetic settles. *)
Ltac decide_reals :=
  repeat match goal with
    | |- context [Rlt_dec ?a ?b] =>
        first [ assert (a < b) by lra; destruct (Rlt_dec a b); [|contradiction]
              | assert (~ a < b) by lra;
                destruct (Rlt_dec a b); [contradiction|] ]
    | |- context [Rle_dec ?a ?b] =>
        first [ assert (a <= b) by lra; destruct (Rle_dec a b); [|contradiction]
              | assert (~ a <= b) by lra;
                destruct (Rle_dec a b); [contradiction|] ]
    | |- context [Req_dec_T ?a ?b] =>
        first [ assert (a = b) by lra;
                destruct (Req_dec_T a b); [|contradiction]
              | assert (a <> b) by lra;
                destruct (Req_dec_T a b); [contradiction|] ]
    end.

Ltac evaluate :=
  repeat (progress
            (cbn -[Rlt_dec Rle_dec Req_dec_T IZR Rmult Rplus Rdiv Rminus Rinv
                   INR sqrt Rmean Rvariance Rpercentile Pos.to_nat];
             change (Pos.to_nat 2) with 2%nat;
             unfold Rltb; decide_reals)).

Ltac same_state :=
  cbv -[Rlt_dec Rle_dec Req_dec_T IZR Rmult Rplus Rdiv Rminus Rinv INR sqrt];
  repeat match goal with
    | |- @eq R _ _ => lra
    | |- _ => reflexivity
    | |- _ => progress f_equal
    end.

Ltac unfold_call :=
  unfold calculate_vitals, _calculate_vitals, is_valid, fuse, clamp, next,
    periodic_sink, rolling_statistics, isoformat_of.

Lemma Rmean_pair x y : Rmean [x; y] = (x + y) / 2.
Proof. unfold Rmean, Rsum. cbn. lra. Qed.

Lemma Rvariance_pair x y : Rvariance [x; y] = ((y - x) / 2) * ((y - x) / 2).
Proof. unfold Rvariance. rewrite Rmean_pair. unfold Rmean, Rsum. cbn. lra. Qed.

Lemma sqrt_Rvariance_pair x y :
  x <= y -> sqrt (Rvariance [x; y]) = (y - x) / 2.
Proof. intros H. rewrite Rvariance_pair. apply sqrt_square. lra. Qed.

Lemma Rpercentile_pair x y q :
  x <= y -> (q < 100)%nat ->
  Rpercentile [x; y] q = x + (y - x) * (IZR (Z.of_nat q) / 100).
Proof.
  intros Hxy Hq. unfold Rpercentile, Rsort.
  cbn -[Nat.div Nat.modulo INR Rle_dec]. rewrite Nat.mul_1_r.
  rewrite (Nat.div_small q 100 Hq), (Nat.mod_small q 100 Hq), INR_IZR_INZ.
  destruct (Rle_dec x y); [reflexivity | contradiction].
Qed.

Lemma first_call :
  calculate_vitals test_config test_dsp test_isoformat 0 [60%Z] None
    init empty_world = Ok (state1, empty_world).
Proof. unfold_call. evaluate. same_state. Qed.

Lemma second_call :
  calculate_vitals test_config test_dsp test_isoformat 1 [60%Z] None
    state1 empty_world = Ok (state2, world2).
Proof.
  unfold_call. evaluate.
  rewrite !Rmean_pair, !sqrt_Rvariance_pair, !Rpercentile_pair by (lra || lia).
  evaluate. same_state.
Qed.

Lemma third_call :
  calculate_vitals test_config test_dsp test_isoformat 2 [70%Z] None
    state2 world2 = Ok (state3, world2).
Proof.
  unfold_call. evaluate.
  unfold Rabs. destruct (Rcase_abs (70 - 60)); [exfalso; lra|].
  evaluate.
  rewrite !Rmean_pair, !sqrt_Rvariance_pair, !Rpercentile_pair by (lra || lia).
  evaluate. same_state.
Qed.

Lemma state2_reachable :
  reachable test_config test_dsp test_isoformat state2 world2.
Proof.
  eapply reachable_step with (ev := CalculateVitals 1 [60%Z] None);
    [|exact second_call].
  eapply reachable_step with (ev := CalculateVitals 0 [60%Z] None);
    [apply reachable_init | exact first_call].
Qed.

(** A swing of 3,000,000,000 between two [int32] samples wraps to a
    negative range and is counted as an absent epoch. *)
Lemma detect_presence_wrapped_range :
  np_ptp [(-1500000000)%Z; 1500000000%Z] = Ok (-1294967296)%Z
  /\ detect_presence [(-1500000000)%Z; 1500000000%Z] init
     = Ok (set_presence false 1 init).
Proof. split; reflexivity. Qed.

Lemma state1_reachable :
  reachable test_config test_dsp test_isoformat state1 empty_world.
Proof.
  eapply reachable_step with (ev := CalculateVitals 0 [60%Z] None);
    [apply reachable_init | exact first_call].
Qed.

Lemma both_call :
  calculate_vitals test_config test_dsp test_isoformat 0 [60%Z] (Some [70%Z])
    init empty_world = Ok (state_both, empty_world).
Proof. unfold_call. evaluate. same_state. Qed.

Lemma is_valid_init b :
  b <= 90 -> is_valid init (mkHeartpy (Fin b) (Fin 50) (Fin 0.25)) = true.
Proof.
  intros Hb.
  now rewrite (is_valid_in_range init (mkHeartpy (Fin b) (Fin 50) (Fin 0.25))
                 b eq_refl Hb).
Qed.

(** ** The theorems at work on the small instance *)

Lemma clamped_heart_rate_within_band_witness :
  exists h,
    last_item (heart_rates state3) = Some (Fin h) /\ 60 - 1 <= h <= 60 + 1.
Proof.
  assert (HN : (0 < moving_avg_size test_config)%nat) by (cbn; lia).
  assert (Hhi : 0 <= snd (hr_std_range test_config)) by (cbn; lra).
  assert (Hprod : produces test_config test_dsp state2
                    (CalculateVitals 2 [70%Z] None) = true).
  { unfold produces, extracted, extracted_2, _calculate_vitals, is_valid.
    evaluate. reflexivity. }
  destruct (clamped_heart_rate_within_band test_config test_dsp
              test_isoformat 2 [70%Z] None state2 world2 state3 world2
              (Fin 60) (Fin 1) HN Hhi state2_reachable eq_refl eq_refl
              third_call Hprod)
    as (a & s & h & p1 & m & Ha & Hs & _ & _ & _ & _ & Hl & Hb).
  exists h. split; [exact Hl|].
  assert (Ea : a = 60) by congruence. assert (Es : s = 1) by congruence.
  rewrite Ea, Es in Hb. exact Hb.
Defined.

Lemma statistics_track_full_history_witness :
  hr_moving_avg state2 <> None
  <-> length (heart_rates state2) = moving_avg_size test_config.
Proof.
  assert (HN : (0 < moving_avg_size test_config)%nat) by (cbn; lia).
  assert (Hr : fst (hr_std_range test_config)
               <= snd (hr_std_range test_config)) by (cbn; lra).
  exact (proj1 (proj2 (proj2 (proj2
           (statistics_track_full_history test_config test_dsp test_isoformat
              1 [60%Z] None state1 empty_world state2 world2 HN Hr
              state1_reachable second_call))))).
Defined.

Lemma vitals_inserted_once_per_window_witness :
  exists m,
    vitals_db world2 = vitals_db empty_world ++ [m]
    /\ last_item (combined_measurements state2) = Some m
    /\ heart_rate m = np_mean (last_entries 2 (heart_rates state2)).
Proof.
  assert (Hrun : run test_config test_dsp test_isoformat
                   [CalculateVitals 0 [60%Z] None;
                    CalculateVitals 1 [60%Z] None] init empty_world
                 = Ok (state2, world2)).
  { cbn [run step]. rewrite first_call. cbn [bind fst snd].
    rewrite second_call. reflexivity. }
  assert (Hprod : produces_any test_config test_dsp test_isoformat
                    [CalculateVitals 0 [60%Z] None;
                     CalculateVitals 1 [60%Z] None] init empty_world = true).
  { cbn [produces_any].
    assert (E : produces test_config test_dsp init
                  (CalculateVitals 0 [60%Z] None) = true).
    { unfold produces, extracted, extracted_2, _calculate_vitals, is_valid.
      evaluate. reflexivity. }
    rewrite E. reflexivity. }
  apply (proj2 (proj2 (proj2 (proj2 (proj2
           (vitals_inserted_once_per_window test_config test_dsp
              test_isoformat eq_refl
              [CalculateVitals 0 [60%Z] None; CalculateVitals 1 [60%Z] None]
              init empty_world state2 world2
              ltac:(cbn; lia) ltac:(cbn; lia) eq_refl eq_refl eq_refl
              Hrun)))))).
  left. exact Hprod.
Defined.


Lemma fusion_of_both_signals_witness :
  exists m,
    last_item (combined_measurements state_both) = Some m
    /\ heart_rates state_both = deque_append 2 [] (Fin ((60 + 70) / 2))
    /\ breathing_rate m = Fin 30.
Proof.
  destruct (fusion_of_both_signals test_config test_dsp test_isoformat 0
              [60%Z] [70%Z] (mkHeartpy (Fin 60) (Fin 50) (Fin 0.25))
              (mkHeartpy (Fin 70) (Fin 50) (Fin 0.25))
              init empty_world state_both empty_world
              eq_refl (is_valid_init 60 ltac:(lra))
              eq_refl (is_valid_init 70 ltac:(lra)) both_call)
    as (b1 & b2 & m1 & m2 & hr & p1 & m & Hb1 & Hb2 & _ & _ & Hc & _ & _
        & Hh & _ & Hm & _ & _).
  exists m. split; [exact Hm|].
  cbn [bpm] in Hb1, Hb2.
  assert (E1 : b1 = 60) by congruence. assert (E2 : b2 = 70) by congruence.
  rewrite E1, E2 in Hc. cbn in Hc.
  assert (Ehr : hr = Fin ((60 + 70) / 2)) by congruence.
  rewrite Ehr in Hh. split; [exact Hh|].
  cbn in Hm. inversion Hm. reflexivity.
Defined.

Lemma fusion_of_one_signal_witness :
  exists hr,
    clamp init (Fin 60) = Ok hr
    /\ heart_rates state1 = deque_append 2 [] hr /\ hr = Fin 60.
Proof.
  destruct (proj1 (fusion_of_one_signal test_config test_dsp test_isoformat
                     0 [60%Z] None init empty_world state1 empty_world
                     first_call)
              (mkHeartpy (Fin 60) (Fin 50) (Fin 0.25))
              eq_refl (is_valid_init 60 ltac:(lra)) eq_refl)
    as (b1 & m1 & hr & p1 & Hb1 & _ & Hc & _ & _ & Hh & _ & Hun).
  exists hr. split; [|split; [exact Hh|]].
  - cbn [bpm] in Hb1. assert (E : b1 = 60) by congruence.
    now rewrite E in Hc.
  - cbn [bpm] in Hb1. assert (E : b1 = 60) by congruence.
    rewrite <- E. exact (Hun eq_refl).
Defined.

Lemma is_valid_spec_witness :
  is_valid state2 (mkHeartpy (Fin 70) (Fin 50) (Fin 0.25)) = true
  /\ is_valid state2 (mkHeartpy (Fin 72.5) (Fin 50) (Fin 0.25)) = false.
Proof.
  split.
  - destruct (is_valid_spec state2 (mkHeartpy (Fin 70) (Fin 50) (Fin 0.25)))
      as (_ & _ & Hband & _).
    destruct (Hband 70 47.5 72.5 eq_refl ltac:(lra) eq_refl eq_refl)
      as [Hiff _].
    apply Hiff. lra.
  - destruct (is_valid_spec state2 (mkHeartpy (Fin 72.5) (Fin 50) (Fin 0.25)))
      as (_ & _ & Hband & _).
    destruct (Hband 72.5 47.5 72.5 eq_refl ltac:(lra) eq_refl eq_refl)
      as [_ Hedge].
    apply Hedge. now right.
Defined.

Lemma dsp_exceptions_are_contained_witness :
  calculate_vitals test_config test_dsp test_isoformat 0 [60%Z] (Some [])
    init empty_world = Ok (state1, empty_world).
Proof.
  rewrite (proj1 (proj2 (dsp_exceptions_are_contained test_config test_dsp
                           test_isoformat 0 [60%Z] (Some []) init
                           empty_world))
             [] eq_refl eq_refl).
  exact first_call.
Defined.

Lemma presence_does_not_gate_vitals_witness :
  match calculate_vitals test_config test_dsp test_isoformat 0 [60%Z] None
          init empty_world,
        calculate_vitals test_config test_dsp test_isoformat 0 [60%Z] None
          (set_presence true 5 init) empty_world with
  | Ok (p', w1), Ok (q', w2) =>
      same_but_presence p' q' /\ w1 = w2
      /\ present p' = false /\ not_present_for p' = 0%Z
      /\ present q' = true /\ not_present_for q' = 5%Z
  | Raise e1, Raise e2 => e1 = e2
  | _, _ => False
  end.
Proof.
  apply (presence_does_not_gate_vitals test_config test_dsp test_isoformat
           0 [60%Z] None init (set_presence true 5 init) empty_world).
  unfold same_but_presence. cbn. repeat split; reflexivity.
Defined.

Lemma debug_mode_traces_instead_of_persisting_witness :
  exists p',
    next test_config_debug test_isoformat debug_state empty_world
    = Ok (p', empty_world)
    /\ length (debug_measurements p') = 1%nat
    /\ combined_measurements p' = combined_measurements debug_state.
Proof.
  destruct (debug_mode_traces_instead_of_persisting test_config_debug
              test_isoformat debug_state empty_world
              (mkMeasurement "left" 0 (Fin 60) (Fin 50) (Fin 15)) 1
              "1970-01-01T00:00:00" "1970-01-01T00:00:01"
              ltac:(cbn; lia)
              eq_refl ltac:(cbn; lia) eq_refl eq_refl eq_refl eq_refl eq_refl
              ltac:(cbn; lia) ltac:(cbn; lia))
    as (p' & Hn & Hd & Hc).
  exists p'. split; [exact Hn|]. split; [now rewrite Hd | exact Hc].
Defined.

(** * Further properties of the processor *)

Section Frames.

Variable cfg : Config.
Variable dsp_stage : list Z -> dsp_outcome.
Variable utc_isoformat : Z -> option string.

Local Abbreviation calculate_vitals :=
  (calculate_vitals cfg dsp_stage utc_isoformat).
Local Abbreviation reachable := (reachable cfg dsp_stage utc_isoformat).

Lemma fuse_frame e m1 m2 p p1 :
  fuse cfg e m1 m2 p = Ok p1 ->
  present p1 = present p /\ not_present_for p1 = not_present_for p
  /\ iteration_count p1 = iteration_count p /\ epoch p1 = epoch p
  /\ lower_bound p1 = lower_bound p /\ upper_bound p1 = upper_bound p
  /\ hr_moving_avg p1 = hr_moving_avg p /\ hr_std_2 p1 = hr_std_2 p
  /\ debug_measurements p1 = debug_measurements p.
Proof.
  intros Hf. apply fuse_inv in Hf.
  destruct (candidate_of p m1 m2).
  - destruct Hf as (hr & m & _ & -> & _). cbn. repeat split; reflexivity.
  - subst p1. repeat split; reflexivity.
Qed.

Lemma fuse_lengths epoch m1 m2 p p1 :
  fuse cfg epoch m1 m2 p = Ok p1 ->
  (length (heart_rates p) <= moving_avg_size cfg)%nat ->
  (length (combined_measurements p) <= 100)%nat ->
  (length (heart_rates p1) <= moving_avg_size cfg)%nat
  /\ (length (combined_measurements p1) <= 100)%nat.
Proof.
  intros Hf Hh Hc. apply fuse_inv in Hf.
  destruct (candidate_of p m1 m2).
  - destruct Hf as (hr & m & _ & -> & _).
    cbn [record_measurement heart_rates combined_measurements].
    rewrite !length_deque_append by assumption. lia.
  - subst p1. auto.
Qed.

Lemma detect_presence_inv signal p p' :
  detect_presence signal p = Ok p' ->
  p' = set_presence true 0 p
  \/ ((not_present_for p + 1)%Z = no_presence_tolerance
      /\ p' = reset (set_presence false (not_present_for p + 1) p))
  \/ ((not_present_for p + 1)%Z <> no_presence_tolerance
      /\ p' = set_presence (present p) (not_present_for p + 1) p).
Proof.
  unfold detect_presence.
  destruct (np_ptp signal) as [r|]; cbn [bind]; [|discriminate].
  destruct (_ <? _)%Z; [intros H; inversion H; auto|].
  destruct (_ =? _)%Z eqn:E; intros H; inversion H; subst.
  - apply Z.eqb_eq in E. auto.
  - apply Z.eqb_neq in E. auto.
Qed.

(** X1. Both logs stay within their capacity: [combined_measurements]
    never holds more than 100 records and [heart_rates] never more than
    [moving_avg_size] values. *)
Theorem logs_stay_within_capacity p w :
  reachable p w ->
  (length (combined_measurements p) <= 100)%nat
  /\ (length (heart_rates p) <= moving_avg_size cfg)%nat.
Proof.
  intros Hr. induction Hr as [|ev p w p' w' Hr [IHc IHh] Hstep].
  - cbn. lia.
  - destruct ev as [signal|epoch s1 s2]; cbn [step] in Hstep.
    + destruct (detect_presence signal p) as [q|] eqn:Hd; cbn [bind] in Hstep;
        [|discriminate].
      inversion Hstep; subst.
      destruct (detect_presence_inv signal p p' Hd)
        as [-> | [[_ ->] | [_ ->]]]; cbn; lia.
    + apply calculate_vitals_inv in Hstep.
      destruct Hstep as (p1 & w1 & Hf & Hn & _ & Hh).
      apply fuse_lengths in Hf; [|exact IHh | exact IHc].
      destruct Hf as [Hh1 Hc1].
      apply next_frame in Hn.
      destruct Hn as (_ & _ & _ & _ & _ & [-> | [h ->]]);
        rewrite ?length_update_last, Hh; auto.
Qed.

(** X2. The presence flag and the absence counter agree: the counter is
    never negative, and while the processor reports presence fewer than 10
    low-amplitude epochs have passed since the last high-amplitude one. *)
Theorem present_means_counter_below_tolerance p w :
  reachable p w ->
  (0 <= not_present_for p)%Z
  /\ (present p = true -> (not_present_for p < no_presence_tolerance)%Z).
Proof.
  intros Hr. induction Hr as [|ev p w p' w' Hr [IH0 IHp] Hstep].
  - cbn. split; [lia | discriminate].
  - destruct ev as [signal|epoch s1 s2]; cbn [step] in Hstep.
    + destruct (detect_presence signal p) as [q|] eqn:Hd; cbn [bind] in Hstep;
        [|discriminate].
      inversion Hstep; subst.
      destruct (detect_presence_inv signal p p' Hd)
        as [-> | [[_ ->] | [Hne ->]]]; cbn.
      * unfold no_presence_tolerance. split; [lia | intros _; lia].
      * split; [lia | discriminate].
      * split; [lia|]. intros Hp. specialize (IHp Hp). lia.
    + apply calculate_vitals_inv in Hstep.
      destruct Hstep as (p1 & w1 & Hf & Hn & _).
      apply fuse_frame in Hf. cbn in Hf.
      destruct Hf as (Hp1 & Hn1 & _).
      apply next_frame in Hn. destruct Hn as (Hp & Hnp & _).
      rewrite Hp, Hnp, Hp1, Hn1. auto.
Qed.

End Frames.

Section Effects.

Variable cfg : Config.
Variable dsp_stage : list Z -> dsp_outcome.
Variable utc_isoformat : Z -> option string.

Local Abbreviation calculate_vitals :=
  (calculate_vitals cfg dsp_stage utc_isoformat).
Local Abbreviation reachable := (reachable cfg dsp_stage utc_isoformat).

Lemma periodic_sink_effects p w p' w' :
  periodic_sink cfg utc_isoformat p w = Ok (p', w') ->
  (debug cfg = true -> w' = w)
  /\ (debug cfg = false ->
      debug_measurements p' = debug_measurements p
      /\ tracebacks w' = tracebacks w).
Proof.
  unfold periodic_sink.
  destruct (insertion_frequency cfg =? 0)%Z; [discriminate|].
  destruct (_ =? 0)%Z; [|intros H; inversion H; auto].
  destruct (last_item _) as [m|]; [|intros H; inversion H; auto].
  destruct (debug cfg); cbn [negb].
  - destruct (isoformat_of _ _); cbn [bind]; [|discriminate].
    destruct (epoch p); cbn [bind]; [|discriminate].
    destruct (isoformat_of _ _); cbn [bind]; [|discriminate].
    intros H; inversion H; subst. split; [reflexivity | discriminate].
  - intros H; inversion H; subst. split; [discriminate|]. intros _.
    split; reflexivity.
Qed.

Lemma next_effects p w p' w' :
  next cfg utc_isoformat p w = Ok (p', w') ->
  (debug cfg = true -> w' = w)
  /\ (debug cfg = false ->
      debug_measurements p' = debug_measurements p
      /\ tracebacks w' = tracebacks w).
Proof.
  unfold next.
  destruct (periodic_sink _ _ _ w) as [[p1 w1]|] eqn:Hs; cbn [bind fst snd];
    [|discriminate].
  destruct (rolling_statistics cfg p1) as [p2|] eqn:Hr; cbn [bind];
    [|discriminate].
  intros H; inversion H; subst; clear H.
  apply periodic_sink_effects in Hs. cbn in Hs. destruct Hs as [Ht Hf].
  apply rolling_statistics_frame in Hr.
  destruct Hr as (_ & _ & _ & _ & _ & _ & Hd).
  split; [exact Ht|]. intros Hdb. destruct (Hf Hdb) as [Hd1 Htr].
  split; [congruence | exact Htr].
Qed.

Lemma calculate_vitals_effects epoch s1 s2 p w p' w' :
  calculate_vitals epoch s1 s2 p w = Ok (p', w') ->
  (debug cfg = true -> vitals_db w' = vitals_db w)
  /\ (debug cfg = false ->
      debug_measurements p' = debug_measurements p
      /\ tracebacks w' = tracebacks w).
Proof.
  rewrite calculate_vitals_eq.
  destruct (fuse _ _ _ _ _) as [p1|] eqn:Hf; cbn [bind]; [|discriminate].
  apply fuse_frame in Hf. destruct Hf as (_ & _ & _ & _ & _ & _ & _ & _ & Hd).
  cbn in Hd. intros Hn. apply next_effects in Hn. destruct Hn as [Ht Hfalse].
  split.
  - intros Hdb. rewrite (Ht Hdb), Hdb. now destruct (dsp_stage s1).
  - intros Hdb. destruct (Hfalse Hdb) as [Hd' Htr]. rewrite Hdb in Htr.
    split; [congruence|]. rewrite Htr. now destruct (dsp_stage s1).
Qed.

(** X3. The two output channels exclude each other over the whole life of
    a processor: in debug mode nothing is ever handed to [insert_vitals];
    outside debug mode [debug_measurements] stays empty and no traceback is
    printed. *)
Theorem debug_and_persistence_exclude_each_other p w :
  reachable p w ->
  (debug cfg = true -> vitals_db w = [])
  /\ (debug cfg = false -> debug_measurements p = [] /\ tracebacks w = 0%nat).
Proof.
  intros Hr. induction Hr as [|ev p w p' w' Hr [IHt IHf] Hstep].
  - cbn. auto.
  - destruct ev as [signal|epoch s1 s2]; cbn [step] in Hstep.
    + destruct (detect_presence signal p) as [q|] eqn:Hd; cbn [bind] in Hstep;
        [|discriminate].
      inversion Hstep; subst.
      split; [exact IHt|]. intros Hdb. destruct (IHf Hdb) as [Hd0 Ht0].
      split; [|exact Ht0].
      destruct (detect_presence_inv signal p p' Hd)
        as [-> | [[_ ->] | [_ ->]]]; exact Hd0.
    + apply calculate_vitals_effects in Hstep. destruct Hstep as [Ht Hf].
      split.
      * intros Hdb. rewrite (Ht Hdb). now apply IHt.
      * intros Hdb. destruct (Hf Hdb) as [Hd1 Ht1], (IHf Hdb) as [Hd0 Ht0].
        split; congruence.
Qed.

End Effects.

Section Extraction.

Variable cfg : Config.
Variable dsp_stage : list Z -> dsp_outcome.
Variable utc_isoformat : Z -> option string.

Local Abbreviation calculate_vitals :=
  (calculate_vitals cfg dsp_stage utc_isoformat).
Local Abbreviation extracted := (extracted cfg dsp_stage).
Local Abbreviation extracted_2 := (extracted_2 cfg dsp_stage).

Lemma is_valid_true_inv p h :
  is_valid p h = true ->
  exists b,
    bpm h = Fin b /\ b <= 90
    /\ (forall lo hi,
          lower_bound p = Some (Fin lo) -> upper_bound p = Some (Fin hi) ->
          lo < b < hi).
Proof.
  unfold is_valid. destruct (bpm h) as [|b]; cbn [isnan]; [discriminate|].
  unfold fgt. destruct (flt (Fin 90) (Fin b)) eqn:E90; [discriminate|].
  apply flt_fin_false in E90. intros Hv. exists b.
  split; [reflexivity|]. split; [exact E90|].
  intros lo hi Hlo Hhi. rewrite Hlo, Hhi in Hv.
  destruct (flt (Fin lo) (Fin b)) eqn:E1; cbn [andb] in Hv; [|discriminate].
  destruct (flt (Fin b) (Fin hi)) eqn:E2; [|discriminate].
  apply flt_fin in E1. apply flt_fin in E2. lra.
Qed.

Lemma zeroed_outside lo hi v :
  lo <= hi ->
  zero_or_within lo hi
    (if flt v (Fin lo) || fgt v (Fin hi) then Fin 0 else v).
Proof.
  intros Hle. destruct v as [|x]; [exact I|].
  unfold fgt. destruct (flt (Fin x) (Fin lo)) eqn:E1; cbn [orb].
  - cbn. now left.
  - destruct (flt (Fin hi) (Fin x)) eqn:E2; cbn; [now left|].
    apply flt_fin_false in E1. apply flt_fin_false in E2. right. lra.
Qed.

(** X4. Whatever the DSP stage returns, a measurement that
    [_calculate_vitals] lets through carries the processor's side and the
    epoch, a finite heart rate of at most 90 BPM that lies strictly inside
    the plausibility band when one is set, an HRV that is zero or within
    [30, 120] and a breathing rate that is zero or within [8, 25]; only a
    NaN HRV or breathing rate passes unchanged. *)
Theorem extracted_measurement_is_plausible p signal epoch m :
  extracted p signal epoch = Some m ->
  side_of m = side cfg /\ timestamp m = epoch
  /\ at_most_90 (heart_rate m)
  /\ zero_or_within 30 120 (hrv m)
  /\ zero_or_within 8 25 (breathing_rate m)
  /\ (forall lo hi x,
        lower_bound p = Some (Fin lo) -> upper_bound p = Some (Fin hi) ->
        heart_rate m = Fin x -> lo < x < hi).
Proof.
  unfold BiometricProcessor.extracted, _calculate_vitals.
  destruct (dsp_stage signal) as [|h]; [discriminate|].
  destruct (is_valid p h) eqn:Hv; [|discriminate].
  intros H. inversion H; subst; clear H.
  cbn [side_of timestamp heart_rate hrv breathing_rate].
  destruct (is_valid_true_inv p h Hv) as (b & Hb & H90 & Hband).
  split; [reflexivity|]. split; [reflexivity|].
  split; [rewrite Hb; exact H90|].
  split; [apply zeroed_outside; lra|].
  split; [apply zeroed_outside; lra|].
  intros lo hi x Hlo Hhi Hx. rewrite Hb in Hx. inversion Hx; subst.
  now apply Hband.
Qed.

(** X5. An epoch in which neither signal yields a measurement (the DSP
    stage raised or the reading was rejected) records nothing: the history
    and the number of combined measurements are unchanged, while the
    iteration counter still advances by one and the epoch is stored. *)
Theorem epoch_without_measurement_only_advances e s1 s2 p w p' w' :
  produces cfg dsp_stage p (CalculateVitals e s1 s2) = false ->
  calculate_vitals e s1 s2 p w = Ok (p', w') ->
  heart_rates p' = heart_rates p
  /\ length (combined_measurements p') = length (combined_measurements p)
  /\ iteration_count p' = (iteration_count p + 1)%Z
  /\ epoch p' = Some e.
Proof.
  intros Hprod Hc. cbn [produces] in Hprod.
  rewrite calculate_vitals_eq in Hc.
  destruct (extracted p s1 e); [destruct (extracted_2 p s2 e);
                                    discriminate|].
  destruct (extracted_2 p s2 e); [discriminate|].
  cbn [fuse bind] in Hc. apply next_frame in Hc.
  destruct Hc as (_ & _ & Hic & He & Hh & Hcm).
  split; [exact Hh|].
  split; [destruct Hcm as [-> | [h ->]]; now rewrite ?length_update_last|].
  split; [exact Hic | exact He].
Qed.

Lemma fadd_comm a b : fadd a b = fadd b a.
Proof.
  destruct a, b; cbn; try reflexivity. now rewrite Rplus_comm.
Qed.

(** X6. When both signals yield a valid measurement the outcome of the
    epoch does not depend on which sensor is passed first: exchanging
    [signal1] and [signal2] gives the same processor and the same world. *)
Theorem two_valid_signals_can_be_exchanged epoch s1 s2 h1 h2 p w :
  dsp_stage s1 = DspReturns h1 -> is_valid p h1 = true ->
  dsp_stage s2 = DspReturns h2 -> is_valid p h2 = true ->
  calculate_vitals epoch s1 (Some s2) p w =
  calculate_vitals epoch s2 (Some s1) p w.
Proof.
  intros Hd1 Hv1 Hd2 Hv2.
  destruct (extracted_valid cfg dsp_stage p s1 epoch h1 Hd1 Hv1)
    as (m1 & b1 & Hm1 & _).
  destruct (extracted_valid cfg dsp_stage p s2 epoch h2 Hd2 Hv2)
    as (m2 & b2 & Hm2 & _).
  rewrite !calculate_vitals_eq. cbn [BiometricProcessor.extracted_2].
  rewrite Hd1, Hd2, Hm1, Hm2. cbn [fuse].
  unfold candidate_both.
  now rewrite (fadd_comm (heart_rate m2)), (fadd_comm (hrv m2)),
    (fadd_comm (breathing_rate m2)).
Qed.

(** X7. A processor constructed with [insertion_frequency = 0] cannot
    complete an epoch: once the fusion stage is through, [next] raises
    [ZeroDivisionError] on every call. *)
Theorem zero_insertion_frequency_always_raises epoch s1 s2 p w :
  insertion_frequency cfg = 0%Z ->
  hr_moving_avg p = None \/ (exists s, hr_std_2 p = Some s) ->
  calculate_vitals epoch s1 s2 p w = Raise ZeroDivisionError.
Proof.
  intros Hf Hwf. rewrite calculate_vitals_eq.
  destruct (fuse_returns cfg epoch (extracted p s1 epoch)
              (extracted_2 p s2 epoch) (set_epoch epoch p) Hwf) as [p1 ->].
  cbn [bind]. unfold next, periodic_sink. now rewrite Hf.
Qed.

End Extraction.

Section Statistics.

Variable cfg : Config.
Variable dsp_stage : list Z -> dsp_outcome.
Variable utc_isoformat : Z -> option string.

Local Abbreviation N := (moving_avg_size cfg).
Local Abbreviation calculate_vitals :=
  (calculate_vitals cfg dsp_stage utc_isoformat).
Local Abbreviation reachable := (reachable cfg dsp_stage utc_isoformat).
Local Abbreviation extracted := (extracted cfg dsp_stage).
Local Abbreviation extracted_2 := (extracted_2 cfg dsp_stage).

Lemma std_band_bounds range xs :
  fst range <= snd range ->
  fst range <= std_band range xs <= snd range.
Proof.
  intros Hle. unfold std_band.
  destruct (Rlt_dec _ _); [lra|]. destruct (Rlt_dec _ _); lra.
Qed.


(** X8. Once set, the std band lies within the configured range: on every
    reachable processor [hr_std_2], when set, is a finite value between the
    two ends of [hr_std_range]. *)
Theorem std_band_stays_in_range p w s :
  (0 < N)%nat ->
  fst (hr_std_range cfg) <= snd (hr_std_range cfg) ->
  reachable p w ->
  hr_std_2 p = Some s ->
  exists x,
    s = Fin x /\ fst (hr_std_range cfg) <= x <= snd (hr_std_range cfg).
Proof.
  intros HN Hrange Hr Hs.
  destruct (reachable_invariant cfg dsp_stage utc_isoformat p w HN Hr)
    as (xs & _ & [[_ (_ & _ & _ & Hun)] | [_ (_ & _ & _ & Hsd)]]);
    [congruence|].
  rewrite Hs in Hsd. inversion Hsd; subst.
  eexists. split; [reflexivity|]. now apply std_band_bounds.
Qed.


Lemma clamp_projection p a s c :
  hr_moving_avg p = Some (Fin a) -> hr_std_2 p = Some (Fin s) -> 0 <= s ->
  clamp p (Fin c) = Ok (Fin (clamp_into (a - s) (a + s) c)).
Proof.
  intros Ha Hs Hpos. unfold clamp. rewrite Ha, Hs.
  unfold fgt, flt, fsub, fadd, fabs, lift2, Rltb, clamp_into, Rmax, Rmin, Rabs.
  destruct (Rcase_abs (c - a));
    destruct (Rlt_dec s _); try destruct (Rlt_dec c a);
    repeat destruct (Rle_dec _ _); do 2 f_equal; lra.
Qed.

(** X10. With statistics in force the clamp is the projection onto the
    band: whichever branch of [calculate_vitals] produced the candidate, the
    value appended to the history is the candidate clamped into
    [hr_moving_avg - hr_std_2, hr_moving_avg + hr_std_2], so a candidate
    inside the band is recorded unchanged and one outside is moved to the
    nearer end. *)
Theorem recorded_heart_rate_is_candidate_projected_onto_band
    e s1 s2 p w p' w' a s c :
  hr_moving_avg p = Some (Fin a) -> hr_std_2 p = Some (Fin s) -> 0 <= s ->
  candidate_of p (extracted p s1 e) (extracted_2 p s2 e) = Some (Fin c) ->
  calculate_vitals e s1 s2 p w = Ok (p', w') ->
  heart_rates p' =
    deque_append N (heart_rates p) (Fin (clamp_into (a - s) (a + s) c))
  /\ (a - s <= c <= a + s ->
      heart_rates p' = deque_append N (heart_rates p) (Fin c)).
Proof.
  intros Ha Hs Hpos Hc Hcalc.
  apply calculate_vitals_inv in Hcalc.
  destruct Hcalc as (p1 & w1 & Hf & _ & _ & Hh).
  apply fuse_inv in Hf.
  change (candidate_of (set_epoch e p)) with (candidate_of p) in Hf.
  rewrite Hc in Hf. destruct Hf as (hr & m & Hcl & Hp1 & _).
  change (clamp (set_epoch e p)) with (clamp p) in Hcl.
  rewrite (clamp_projection p a s c Ha Hs Hpos) in Hcl.
  inversion Hcl; subst hr; clear Hcl.
  assert (E : heart_rates p' =
              deque_append N (heart_rates p)
                (Fin (clamp_into (a - s) (a + s) c)))
    by (rewrite Hh, Hp1; reflexivity).
  split; [exact E|]. intros Hin. rewrite E. do 2 f_equal.
  unfold clamp_into, Rmax, Rmin.
  repeat destruct (Rle_dec _ _); lra.
Qed.

End Statistics.

Section PhysiologicalCeiling.

Variable cfg : Config.
Variable dsp_stage : list Z -> dsp_outcome.
Variable utc_isoformat : Z -> option string.

Local Abbreviation N := (moving_avg_size cfg).
Local Abbreviation calculate_vitals :=
  (calculate_vitals cfg dsp_stage utc_isoformat).
Local Abbreviation reachable := (reachable cfg dsp_stage utc_isoformat).
Local Abbreviation extracted := (extracted cfg dsp_stage).
Local Abbreviation extracted_2 := (extracted_2 cfg dsp_stage).

Lemma Rsum_le c xs :
  Forall (fun x => x <= c) xs -> Rsum xs <= c * INR (length xs).
Proof.
  induction 1 as [|x xs Hx _ IH]; [cbn; lra|].
  change (Rsum (x :: xs)) with (x + Rsum xs).
  change (length (x :: xs)) with (S (length xs)). rewrite S_INR. lra.
Qed.

Lemma Rmean_le c xs :
  xs <> [] -> Forall (fun x => x <= c) xs -> Rmean xs <= c.
Proof.
  intros Hne Hall. unfold Rmean.
  assert (Hpos : 0 < INR (length xs)).
  { apply lt_0_INR. destruct xs; [congruence | cbn; lia]. }
  apply Rsum_le in Hall.
  apply Rmult_le_reg_r with (r := INR (length xs)); [exact Hpos|].
  unfold Rdiv. rewrite Rmult_assoc, Rinv_l by lra. lra.
Qed.

Lemma finite_values_at_most_90 l xs :
  finite_values l = Some xs -> Forall at_most_90 l ->
  Forall (fun x => x <= 90) xs.
Proof.
  revert xs. induction l as [|[|y] t IH]; intros xs H Hall; cbn in H.
  - inversion H. constructor.
  - discriminate.
  - destruct (finite_values t) as [ys|]; [|discriminate].
    inversion H; subst. inversion Hall; subst.
    constructor; [assumption | now apply IH].
Qed.

Lemma deque_append_Forall {A} (P : A -> Prop) n l x :
  Forall P l -> P x -> Forall P (deque_append n l x).
Proof.
  intros Hl Hx. unfold deque_append.
  assert (Happ : Forall P (l ++ [x]))
    by (apply Forall_app; split; [exact Hl | now constructor]).
  destruct (_ <? _)%nat; [exact Happ|].
  destruct (l ++ [x]); [constructor | now inversion Happ].
Qed.

Lemma extracted_at_most_90 p signal e m :
  extracted p signal e = Some m -> at_most_90 (heart_rate m).
Proof.
  unfold BiometricProcessor.extracted, _calculate_vitals.
  destruct (dsp_stage signal) as [|h]; [discriminate|].
  destruct (is_valid p h) eqn:Hv; [|discriminate].
  intros H. inversion H; subst. cbn [heart_rate].
  destruct (is_valid_true_inv p h Hv) as (b & -> & H90 & _). exact H90.
Qed.

Lemma candidate_at_most_90 p m1 m2 c :
  damping_ok p ->
  (forall m, m1 = Some m -> at_most_90 (heart_rate m)) ->
  (forall m, m2 = Some m -> at_most_90 (heart_rate m)) ->
  candidate_of p m1 m2 = Some c -> at_most_90 c.
Proof.
  intros Hd H1 H2. unfold candidate_of, candidate_both, candidate_second.
  destruct m1 as [m1|], m2 as [m2|]; intros H; inversion H; subst; clear H;
    try specialize (H1 m1 eq_refl); try specialize (H2 m2 eq_refl).
  - destruct (heart_rate m1) as [|b1]; [contradiction|].
    destruct (heart_rate m2) as [|b2]; [contradiction|].
    cbn [fadd lift2]. rewrite fdiv_two.
    destruct Hd as [-> | (a & s & -> & Ha & _)];
      cbn [fadd lift2 at_most_90] in *; rewrite ?fdiv_two; cbn; lra.
  - exact H1.
  - destruct (heart_rate m2) as [|b2]; [contradiction|].
    destruct Hd as [-> | (a & s & -> & Ha & _)];
      cbn [fadd lift2 at_most_90] in *; rewrite ?fdiv_two; cbn; lra.
Qed.

Lemma clamp_at_most_90 p c hr :
  damping_ok p -> at_most_90 c -> clamp p c = Ok hr -> at_most_90 hr.
Proof.
  intros Hd Hc. destruct c as [|x]; [contradiction|]. cbn in Hc.
  destruct Hd as [Hun | (a & s & Ha & Ha90 & Hs & Hpos)].
  - rewrite (clamp_unset p _ Hun). intros H; inversion H. exact Hc.
  - rewrite (clamp_projection p a s x Ha Hs Hpos).
    intros H; inversion H; subst. cbn.
    unfold clamp_into, Rmax, Rmin. repeat destruct (Rle_dec _ _); lra.
Qed.

(** X11. No heart rate above 90 BPM ever enters the history: on every
    reachable processor all entries of [heart_rates] are finite and at most
    90, through averaging, damping and clamping alike. *)
Theorem recorded_heart_rates_never_exceed_90 p w :
  (0 < N)%nat ->
  0 <= snd (hr_std_range cfg) ->
  reachable p w ->
  Forall at_most_90 (heart_rates p).
Proof.
  intros HN Hhi Hr. induction Hr as [|ev p w p' w' Hr IH Hstep].
  - constructor.
  - pose proof (reachable_invariant cfg dsp_stage utc_isoformat p w HN Hr)
      as Hinv.
    destruct ev as [signal|e s1 s2]; cbn [step] in Hstep.
    + destruct (detect_presence signal p) as [q|] eqn:Hd; cbn [bind] in Hstep;
        [|discriminate].
      inversion Hstep; subst.
      destruct (detect_presence_inv signal p p' Hd)
        as [-> | [[_ ->] | [_ ->]]]; cbn; auto.
    + assert (Hdamp : damping_ok p).
      { destruct Hinv as (xs & Hfin & [[_ (_ & _ & Hav & _)]
                                      | [Hlen (_ & _ & Hav & Hsd)]]);
          [now left | right].
        exists (Rmean xs), (std_band (hr_std_range cfg) xs).
        split; [exact Hav|]. split; [|split; [exact Hsd|]].
        - apply Rmean_le; [|now apply (finite_values_at_most_90 _ _ Hfin)].
          destruct xs; [cbn in Hlen; lia | discriminate].
        - now apply std_band_nonneg. }
      apply calculate_vitals_inv in Hstep.
      destruct Hstep as (p1 & w1 & Hf & _ & _ & Hh).
      apply fuse_inv in Hf.
      change (candidate_of (set_epoch e p)) with (candidate_of p) in Hf.
      rewrite Hh.
      destruct (candidate_of p _ _) as [c|] eqn:Hc.
      * destruct Hf as (hr & m & Hcl & -> & _).
        change (clamp (set_epoch e p)) with (clamp p) in Hcl.
        cbn [record_measurement heart_rates set_epoch].
        apply deque_append_Forall; [exact IH|].
        apply (clamp_at_most_90 p c hr Hdamp); [|exact Hcl].
        apply (candidate_at_most_90 p _ _ c Hdamp) in Hc; [exact Hc| |].
        -- intros m0 Hm0. now apply extracted_at_most_90 in Hm0.
        -- intros m0 Hm0. destruct s2 as [sig2|]; [|discriminate].
           now apply extracted_at_most_90 in Hm0.
      * subst p1. exact IH.
Qed.

End PhysiologicalCeiling.

Section AfterPresenceLoss.

Variable cfg : Config.
Variable dsp_stage : list Z -> dsp_outcome.
Variable utc_isoformat : Z -> option string.

Local Abbreviation freq := (insertion_frequency cfg).
Local Abbreviation runs := (run cfg dsp_stage utc_isoformat).
Local Abbreviation calculate_vitals :=
  (calculate_vitals cfg dsp_stage utc_isoformat).

(** X12. The reset on presence loss is one-shot: once the absence counter
    has reached the tolerance, further low-amplitude epochs only increment
    it, so a history that has started to refill is not wiped again before a
    high-amplitude epoch has been seen. *)
Theorem absence_resets_only_once signals : forall p w,
  Forall low_amplitude signals ->
  (no_presence_tolerance <= not_present_for p)%Z ->
  runs (map DetectPresence signals) p w =
    Ok (set_presence (present p)
          (not_present_for p + Z.of_nat (length signals)) p, w).
Proof.
  induction signals as [|s rest IH]; intros p w Hall Hge.
  - cbn. now rewrite Z.add_0_r, set_presence_same.
  - inversion Hall as [|? ? [r [Hr Hle]] Hrest]; subst.
    cbn [map length run step].
    rewrite (detect_presence_low s r p Hr Hle).
    assert (E : (not_present_for p + 1 =? no_presence_tolerance)%Z = false)
      by (apply Z.eqb_neq; lia).
    rewrite E. cbn [bind fst snd].
    rewrite IH; cbn [not_present_for set_presence present]; try assumption;
      try lia.
    rewrite set_presence_twice. do 3 f_equal. lia.
Qed.

Hypothesis not_debug : debug cfg = false.

Lemma quiet_call e s1 s2 p w :
  produces cfg dsp_stage p (CalculateVitals e s1 s2) = false ->
  calculate_vitals e s1 s2 p w = next cfg utc_isoformat (set_epoch e p) w.
Proof.
  intros Hprod. cbn [produces] in Hprod. rewrite calculate_vitals_eq.
  destruct (extracted cfg dsp_stage p s1 e);
    [destruct (extracted_2 cfg dsp_stage p s2 e); discriminate|].
  destruct (extracted_2 cfg dsp_stage p s2 e); [discriminate|].
  cbn [fuse bind]. rewrite not_debug. now destruct (dsp_stage s1).
Qed.

Lemma quiet_window evs : forall p w p' w',
  (0 < freq)%Z ->
  forallb is_calculate_vitals evs = true ->
  produces_any cfg dsp_stage utc_isoformat evs p w = false ->
  (iteration_count p mod freq + Z.of_nat (length evs) < freq)%Z ->
  runs evs p w = Ok (p', w') ->
  heart_rates p' = heart_rates p
  /\ combined_measurements p' = combined_measurements p
  /\ w' = w
  /\ (iteration_count p' mod freq =
        iteration_count p mod freq + Z.of_nat (length evs))%Z.
Proof.
  induction evs as [|ev rest IH]; intros p w p' w' Hf Hall Hprod Hlt Hrun.
  - cbn in Hrun. inversion Hrun; subst. cbn [length].
    rewrite Z.add_0_r. auto.
  - cbn [forallb] in Hall. apply andb_true_iff in Hall.
    destruct Hall as [Hev Hall].
    destruct ev as [signal|e s1 s2]; [discriminate|].
    cbn [run step produces_any] in *.
    apply orb_false_iff in Hprod. destruct Hprod as [Hp0 Hprest].
    rewrite (quiet_call e s1 s2 p w Hp0) in Hrun, Hprest.
    destruct (next cfg utc_isoformat (set_epoch e p) w) as [[q v]|] eqn:Hn;
      cbn [bind fst snd] in Hrun; [|discriminate].
    apply (next_sink cfg utc_isoformat not_debug) in Hn.
    cbn [set_epoch iteration_count heart_rates combined_measurements] in Hn.
    destruct Hn as (Hh & Hic & Hsink).
    cbn [length] in Hlt. rewrite Nat2Z.inj_succ in Hlt.
    pose proof (Z.mod_pos_bound (iteration_count p) freq Hf) as Hb.
    assert (Hm : ((iteration_count p + 1) mod freq =
                  iteration_count p mod freq + 1)%Z)
      by (apply mod_succ; lia).
    assert (E : ((iteration_count p + 1) mod freq =? 0)%Z = false)
      by (apply Z.eqb_neq; lia).
    rewrite E in Hsink. destruct Hsink as [-> Hcm].
    destruct (IH q w p' w' Hf Hall Hprest) as (Hh' & Hcm' & Hw & Hmod);
      [rewrite Hic, Hm; lia | exact Hrun |].
    cbn [length]. rewrite Nat2Z.inj_succ.
    repeat split; try congruence. rewrite Hmod, Hic, Hm. lia.
Qed.

(** X13. Presence loss wipes the history but not the measurement log, and
    the sink only asks for a non-empty log.  So when the
    [insertion_frequency] epochs that follow a [reset] yield no measurement,
    the last record from before the reset is handed to [insert_vitals]
    again, with a NaN heart rate (the mean of the empty history). *)
Theorem stale_measurement_is_persisted_with_nan evs q w p' w' m0 :
  (0 < freq)%Z ->
  last_item (combined_measurements q) = Some m0 ->
  forallb is_calculate_vitals evs = true ->
  length evs = Z.to_nat freq ->
  produces_any cfg dsp_stage utc_isoformat evs (reset q) w = false ->
  runs evs (reset q) w = Ok (p', w') ->
  vitals_db w' = vitals_db w ++ [set_heart_rate NaN m0]
  /\ last_item (combined_measurements p') = Some (set_heart_rate NaN m0).
Proof.
  intros Hf Hlast Hall Hlen Hprod Hrun.
  destruct (exists_last (l := evs)) as (front & lastev & ->).
  { intros ->. cbn in Hlen. lia. }
  destruct (run_app_inv cfg dsp_stage utc_isoformat front [lastev] _ w _ Hrun)
    as (p1 & w1 & Hrun1 & Hrunl).
  rewrite (produces_any_app cfg dsp_stage utc_isoformat front [lastev]
             _ w p1 w1 Hrun1) in Hprod.
  apply orb_false_iff in Hprod. destruct Hprod as [Hpf Hpl].
  rewrite forallb_app in Hall. apply andb_true_iff in Hall.
  destruct Hall as [Hallf Hlastev]. cbn [forallb] in Hlastev.
  rewrite length_app in Hlen. cbn [length] in Hlen.
  destruct (quiet_window front (reset q) w p1 w1 Hf Hallf Hpf)
    as (Hh & Hcm & -> & Hmod);
    [cbn [reset init_tracking iteration_count]; rewrite Z.mod_0_l by lia; lia
    | exact Hrun1 |].
  cbn [reset init_tracking iteration_count heart_rates combined_measurements]
    in Hh, Hcm, Hmod.
  rewrite Z.mod_0_l in Hmod by lia.
  destruct lastev as [signal|e s1 s2]; [discriminate|].
  cbn [run step produces_any] in Hrunl, Hpl.
  apply orb_false_iff in Hpl. destruct Hpl as [Hp0 _].
  rewrite (quiet_call e s1 s2 p1 w Hp0) in Hrunl.
  destruct (next cfg utc_isoformat (set_epoch e p1) w) as [[p2 w2]|] eqn:Hn;
    cbn [bind fst snd] in Hrunl; [|discriminate].
  inversion Hrunl; subst p2 w2; clear Hrunl.
  apply (next_sink cfg utc_isoformat not_debug) in Hn.
  cbn [set_epoch iteration_count heart_rates combined_measurements] in Hn.
  destruct Hn as (_ & _ & Hsink).
  assert (Hwrap : ((iteration_count p1 + 1) mod freq = 0)%Z)
    by (apply mod_succ_wrap; lia).
  rewrite Hwrap, Hcm, Hlast, Hh in Hsink. cbn [Z.eqb] in Hsink.
  assert (Enan : np_mean (py_slice_from (@nil pyfloat)
                            (rolling_average_size cfg * -1)) = NaN).
  { unfold py_slice_from. destruct (_ <? _)%Z; now rewrite skipn_nil. }
  rewrite Enan in Hsink. destruct Hsink as [-> Hcm'].
  split; [reflexivity|].
  now rewrite Hcm', last_item_update_last, Hlast.
Qed.

Lemma py_slice_whole {A} (l : list A) (k : Z) :
  k = 0%Z \/ (Z.of_nat (length l) <= k)%Z -> py_slice_from l (k * -1) = l.
Proof.
  intros Hk. unfold py_slice_from.
  destruct (_ <? _)%Z eqn:E.
  - apply Z.ltb_lt in E.
    replace (length l - Z.to_nat (- (k * -1)))%nat with 0%nat by lia.
    reflexivity.
  - apply Z.ltb_ge in E.
    replace (Z.to_nat (k * -1)) with 0%nat by lia. reflexivity.
Qed.

(** X14. The smoothing window covers the whole history when it is
    configured to 0 (Python reads [l[-0:]] as [l[0:]]) or is at least as
    long as the history: the heart rate handed to [insert_vitals] is then
    the mean of all of [heart_rates]. *)
Theorem smoothing_window_covers_short_history p1 w p' w' m0 :
  next cfg utc_isoformat p1 w = Ok (p', w') ->
  ((iteration_count p1 + 1) mod freq = 0)%Z ->
  last_item (combined_measurements p1) = Some m0 ->
  rolling_average_size cfg = 0%Z
  \/ (Z.of_nat (length (heart_rates p1)) <= rolling_average_size cfg)%Z ->
  w' = insert_vitals (set_heart_rate (np_mean (heart_rates p1)) m0) w
  /\ last_item (combined_measurements p') =
       Some (set_heart_rate (np_mean (heart_rates p1)) m0).
Proof.
  intros Hn Hmod Hlast Hk.
  apply (next_sink cfg utc_isoformat not_debug) in Hn.
  destruct Hn as (_ & _ & Hsink).
  rewrite Hmod, Hlast in Hsink. cbn [Z.eqb] in Hsink.
  rewrite (py_slice_whole _ _ Hk) in Hsink. destruct Hsink as [-> Hcm].
  split; [reflexivity|].
  now rewrite Hcm, last_item_update_last, Hlast.
Qed.

End AfterPresenceLoss.

Section WarmUp.

Variable cfg : Config.
Variable dsp_stage : list Z -> dsp_outcome.
Variable utc_isoformat : Z -> option string.

Local Abbreviation N := (moving_avg_size cfg).
Local Abbreviation reachable := (reachable cfg dsp_stage utc_isoformat).

Lemma length_deque_append_le {A} n (l : list A) x :
  (length (deque_append n l x) <= S (length l))%nat.
Proof.
  unfold deque_append. destruct (_ <? _)%nat.
  - rewrite length_app. cbn. lia.
  - destruct l; cbn; [lia|]. rewrite length_app. cbn. lia.
Qed.

Lemma history_no_longer_than_epochs p w :
  reachable p w ->
  (Z.of_nat (length (heart_rates p)) <= iteration_count p)%Z.
Proof.
  intros Hr. induction Hr as [|ev p w p' w' Hr IH Hstep].
  - cbn. lia.
  - destruct ev as [signal|e s1 s2]; cbn [step] in Hstep.
    + destruct (detect_presence signal p) as [q|] eqn:Hd; cbn [bind] in Hstep;
        [|discriminate].
      inversion Hstep; subst.
      destruct (detect_presence_inv signal p p' Hd)
        as [-> | [[_ ->] | [_ ->]]]; cbn; lia.
    + apply calculate_vitals_inv in Hstep.
      destruct Hstep as (p1 & w1 & Hf & Hn & _ & Hh).
      apply next_frame in Hn. destruct Hn as (_ & _ & Hic & _).
      pose proof (fuse_frame cfg e _ _ _ _ Hf) as (_ & _ & Hic1 & _).
      apply fuse_inv in Hf. rewrite Hh, Hic, Hic1.
      cbn [set_epoch iteration_count].
      destruct (candidate_of _ _ _).
      * destruct Hf as (hr & m & _ & -> & _).
        cbn [record_measurement heart_rates set_epoch].
        pose proof (length_deque_append_le N (heart_rates p) hr). lia.
      * subst p1. cbn. lia.
Qed.

(** X15. Warm-up: during the first [moving_avg_size - 1] epochs after
    construction or after a presence loss the statistics are unset, so no
    plausibility band is applied by [is_valid] and nothing is clamped: any
    finite BPM of at most 90 is accepted and recorded as fused. *)
Theorem no_band_during_warm_up p w :
  (0 < N)%nat ->
  reachable p w ->
  (iteration_count p < Z.of_nat N)%Z ->
  statistics_unset p
  /\ (forall m x, bpm m = Fin x -> x <= 90 -> is_valid p m = true)
  /\ (forall hr, clamp p hr = Ok hr).
Proof.
  intros HN Hr Hlt.
  pose proof (history_no_longer_than_epochs p w Hr) as Hlen.
  destruct (reachable_invariant cfg dsp_stage utc_isoformat p w HN Hr)
    as (xs & Hfin & [[_ Hun] | [Heq _]]).
  - split; [exact Hun|]. destruct Hun as (Hlo & _ & Hav & _). split.
    + intros m x Hb Hx. now rewrite (is_valid_in_range p m x Hb Hx), Hlo.
    + intros hr. now apply clamp_unset.
  - rewrite <- (finite_values_length _ _ Hfin) in Hlen. lia.
Qed.

End WarmUp.

(** ** The further properties at work on the small instance *)

Lemma logs_stay_within_capacity_witness :
  (length (combined_measurements state2) <= 100)%nat
  /\ (length (heart_rates state2) <= moving_avg_size test_config)%nat.
Proof.
  exact (logs_stay_within_capacity test_config test_dsp test_isoformat
           state2 world2 state2_reachable).
Defined.

Lemma present_means_counter_below_tolerance_witness :
  (0 <= not_present_for (set_presence true 0 init))%Z
  /\ (present (set_presence true 0 init) = true ->
      (not_present_for (set_presence true 0 init) < no_presence_tolerance)%Z).
Proof.
  apply (present_means_counter_below_tolerance test_config test_dsp
           test_isoformat (set_presence true 0 init) empty_world).
  eapply reachable_step with (ev := DetectPresence [0%Z; 300000%Z]);
    [apply reachable_init | reflexivity].
Defined.

Lemma debug_and_persistence_exclude_each_other_witness :
  debug_measurements state2 = [] /\ tracebacks world2 = 0%nat.
Proof.
  exact (proj2 (debug_and_persistence_exclude_each_other test_config test_dsp
                  test_isoformat state2 world2 state2_reachable) eq_refl).
Defined.

Lemma extracted_measurement_is_plausible_witness :
  exists m,
    extracted test_config test_dsp state2 [70%Z] 2 = Some m
    /\ at_most_90 (heart_rate m) /\ zero_or_within 30 120 (hrv m).
Proof.
  assert (Hv : is_valid state2 (mkHeartpy (Fin 70) (Fin 50) (Fin 0.25)) = true).
  { unfold is_valid. evaluate. reflexivity. }
  destruct (extracted_valid test_config test_dsp state2 [70%Z] 2 _
              eq_refl Hv) as (m & b & Hm & _).
  exists m. split; [exact Hm|].
  destruct (extracted_measurement_is_plausible test_config test_dsp state2
              [70%Z] 2 m Hm) as (_ & _ & H90 & Hhrv & _).
  split; assumption.
Defined.

Lemma epoch_without_measurement_only_advances_witness :
  exists p' w',
    calculate_vitals test_config test_dsp test_isoformat 2 [] None
      state2 world2 = Ok (p', w')
    /\ heart_rates p' = heart_rates state2
    /\ iteration_count p' = 3%Z.
Proof.
  destruct (calculate_vitals_returns test_config test_dsp test_isoformat
              2 [] None state2 world2)
    as (p' & w' & Hc);
    [cbn; lia | cbn; lia | reflexivity | cbn; lia | cbn; lia
    | right; eexists; reflexivity |].
  exists p', w'. split; [exact Hc|].
  destruct (epoch_without_measurement_only_advances test_config test_dsp
              test_isoformat 2 [] None state2 world2 p' w' eq_refl Hc)
    as (Hh & _ & Hic & _).
  split; [exact Hh | exact Hic].
Defined.

Lemma two_valid_signals_can_be_exchanged_witness :
  calculate_vitals test_config test_dsp test_isoformat 0 [70%Z] (Some [60%Z])
    init empty_world = Ok (state_both, empty_world).
Proof.
  rewrite (two_valid_signals_can_be_exchanged test_config test_dsp
             test_isoformat 0 [70%Z] [60%Z]
             (mkHeartpy (Fin 70) (Fin 50) (Fin 0.25))
             (mkHeartpy (Fin 60) (Fin 50) (Fin 0.25)) init empty_world
             eq_refl (is_valid_init 70 ltac:(lra))
             eq_refl (is_valid_init 60 ltac:(lra))).
  exact both_call.
Defined.

Lemma zero_insertion_frequency_always_raises_witness :
  calculate_vitals (mkConfig "left" 0 25 false 120 (1, 10) (15%nat, 80%nat))
    test_dsp test_isoformat 0 [60%Z] None init empty_world
  = Raise ZeroDivisionError.
Proof.
  apply zero_insertion_frequency_always_raises; [reflexivity | now left].
Defined.

Lemma std_band_stays_in_range_witness :
  exists x, Fin 1 = Fin x /\ 1 <= x <= 10.
Proof.
  apply (std_band_stays_in_range test_config test_dsp test_isoformat
           state2 world2 (Fin 1));
    [cbn; lia | cbn; lra | exact state2_reachable | reflexivity].
Defined.


Lemma recorded_heart_rate_is_candidate_projected_onto_band_witness :
  heart_rates state3 =
    deque_append 2 (heart_rates state2) (Fin (clamp_into (60 - 1) (60 + 1) 70)).
Proof.
  assert (Hc : candidate_of state2
                 (extracted test_config test_dsp state2 [70%Z] 2)
                 (extracted_2 test_config test_dsp state2 None 2)
               = Some (Fin 70)).
  { unfold candidate_of, extracted, extracted_2, _calculate_vitals, is_valid.
    evaluate. reflexivity. }
  exact (proj1 (recorded_heart_rate_is_candidate_projected_onto_band
                  test_config test_dsp test_isoformat 2 [70%Z] None
                  state2 world2 state3 world2 60 1 70
                  eq_refl eq_refl ltac:(lra) Hc third_call)).
Defined.

Lemma recorded_heart_rates_never_exceed_90_witness :
  Forall at_most_90 (heart_rates state2).
Proof.
  apply (recorded_heart_rates_never_exceed_90 test_config test_dsp
           test_isoformat state2 world2);
    [cbn; lia | cbn; lra | exact state2_reachable].
Defined.

Lemma absence_resets_only_once_witness :
  run test_config test_dsp test_isoformat
    (map DetectPresence [[0%Z]; [0%Z]]) (set_presence false 10 state2) world2
  = Ok (set_presence false 12 state2, world2).
Proof.
  apply (absence_resets_only_once test_config test_dsp test_isoformat
           [[0%Z]; [0%Z]] (set_presence false 10 state2) world2).
  - repeat constructor; exists 0%Z; (split; [reflexivity | lia]).
  - cbn. unfold no_presence_tolerance. lia.
Defined.

Lemma stale_measurement_is_persisted_with_nan_witness :
  exists p' w',
    run test_config test_dsp test_isoformat
      [CalculateVitals 5 [] None; CalculateVitals 6 [] None]
      (reset state2) world2 = Ok (p', w')
    /\ vitals_db w' =
         vitals_db world2
         ++ [mkMeasurement "left" 1 NaN (Fin 50) (Fin 15)].
Proof.
  assert (Hrun : exists p' w',
             run test_config test_dsp test_isoformat
               [CalculateVitals 5 [] None; CalculateVitals 6 [] None]
               (reset state2) world2 = Ok (p', w')).
  { do 2 eexists. cbn [run step]. unfold_call. evaluate. reflexivity. }
  destruct Hrun as (p' & w' & Hrun). exists p', w'. split; [exact Hrun|].
  assert (Hprod : produces_any test_config test_dsp test_isoformat
                    [CalculateVitals 5 [] None; CalculateVitals 6 [] None]
                    (reset state2) world2 = false).
  { cbn [produces_any produces extracted extracted_2 _calculate_vitals
         test_dsp orb step].
    destruct (calculate_vitals _ _ _ 5 [] None (reset state2) world2)
      as [[q v]|]; [|reflexivity].
    now destruct (calculate_vitals _ _ _ 6 [] None q v) as [[q' v']|]. }
  exact (proj1 (stale_measurement_is_persisted_with_nan test_config test_dsp
                  test_isoformat eq_refl
                  [CalculateVitals 5 [] None; CalculateVitals 6 [] None]
                  state2 world2 p' w'
                  (mkMeasurement "left" 1 (Fin 60) (Fin 50) (Fin 15))
                  ltac:(cbn; lia) eq_refl eq_refl eq_refl Hprod Hrun)).
Defined.

Lemma smoothing_window_covers_short_history_witness :
  exists p' w',
    next test_config test_isoformat state1 empty_world = Ok (p', w')
    /\ w' = insert_vitals
              (set_heart_rate (np_mean [Fin 60])
                 (mkMeasurement "left" 0 (Fin 60) (Fin 50) (Fin 15)))
              empty_world.
Proof.
  assert (Hn : exists p' w',
             next test_config test_isoformat state1 empty_world
             = Ok (p', w')).
  { do 2 eexists. unfold next, periodic_sink, rolling_statistics.
    evaluate. reflexivity. }
  destruct Hn as (p' & w' & Hn). exists p', w'. split; [exact Hn|].
  exact (proj1 (smoothing_window_covers_short_history test_config
                  test_isoformat eq_refl state1 empty_world p' w'
                  (mkMeasurement "left" 0 (Fin 60) (Fin 50) (Fin 15))
                  Hn eq_refl eq_refl ltac:(right; cbn; lia))).
Defined.

Lemma no_band_during_warm_up_witness :
  statistics_unset state1
  /\ is_valid state1 (mkHeartpy (Fin 12) (Fin 50) (Fin 0.25)) = true.
Proof.
  destruct (no_band_during_warm_up test_config test_dsp test_isoformat
              state1 empty_world)
    as (Hun & Hv & _);
    [cbn; lia | exact state1_reachable | cbn; lia |].
  split; [exact Hun|].
  apply (Hv (mkHeartpy (Fin 12) (Fin 50) (Fin 0.25)) 12 eq_refl). lra.
Defined.
